(** * MachampModel: task selection, loss aggregation, humanizing, metric reduction

    A shallow embedding of [mtp/machamp/models/machamp_model.py].

    Python dictionaries whose order is irrelevant (the gold-label bundle, the
    column index of a batch, the class-probability mapping, the output bundle)
    are finite maps with string keys.  The metric dictionary, whose insertion
    order fixes the order of a floating-point summation, is an association
    list.  Python floats are binary64 primitive floats.  Exceptions are an
    explicit error result. *)

From Stdlib Require Import Floats.PrimFloat Ascii.
From stdpp Require Import gmap strings list fin_maps.

#[local] Set Warnings "-register-all,-inexact-float,-clear-no-such-hyp".

(** ** Python values and exceptions *)

(** The fragment of Python objects that reaches this module: [None], numbers
    (floats and zero-dimensional tensors; the integer literal [0] is [VNum 0]),
    strings, lists (and tensors of higher rank) and dictionaries. *)
Inductive value : Type :=
| VNone
| VNum (x : float)
| VStr (s : string)
| VList (l : list value)
| VDict (d : gmap string value).

Inductive exn : Type :=
| KeyError (k : string)
| TypeError
| IndexError
| ValueError
| UnboundLocalError.

Inductive result (A : Type) : Type :=
| Ok (a : A)
| Raise (e : exn).
Arguments Ok {A} a.
Arguments Raise {A} e.

#[global] Instance result_ret : MRet result := λ A a, Ok a.
#[global] Instance result_bind : MBind result :=
  λ A B f r, match r with Ok a => f a | Raise e => Raise e end.
#[global] Instance result_fmap : FMap result :=
  λ A B f r, match r with Ok a => Ok (f a) | Raise e => Raise e end.

(** [d[k]] on a dictionary. *)
Definition dict_getitem (d : gmap string value) (k : string) : result value :=
  match d !! k with
  | Some v => Ok v
  | None => Raise (KeyError k)
  end.

(** [k in d] on a dictionary. *)
Definition key_in (k : string) (d : gmap string value) : bool :=
  bool_decide (is_Some (d !! k)).

(** [s.startswith(p)]. *)
Definition startswith (s p : string) : bool := String.prefix p s.

(** [s.endswith(suf)]. *)
Fixpoint endswith (s suf : string) : bool :=
  String.eqb s suf ||
  match s with
  | EmptyString => false
  | String _ s' => endswith s' suf
  end.

(** [k in s] on strings: substring test. *)
Fixpoint str_contains (s k : string) : bool :=
  String.prefix k s ||
  match s with
  | EmptyString => false
  | String _ s' => str_contains s' k
  end.

(** [s.split(sep)] for a one-character separator. *)
Fixpoint split (sep : ascii) (s : string) : list string :=
  match s with
  | EmptyString => [EmptyString]
  | String c s' =>
      if Ascii.eqb c sep then EmptyString :: split sep s'
      else match split sep s' with
           | h :: t => String c h :: t
           | [] => [String c EmptyString]
           end
  end.

(** [s.split("/")[-1]]. *)
Definition last_component (s : string) : string :=
  List.last (split "/"%char s) EmptyString.

(** [s.lower()]; only the letters A-Z can lower-case to the letters of
    ["las"], so the ASCII rule decides the test of [get_metrics]. *)
Definition lower_ascii (c : ascii) : ascii :=
  let n := Ascii.nat_of_ascii c in
  if (65 <=? n)%nat && (n <=? 90)%nat then Ascii.ascii_of_nat (n + 32) else c.

Fixpoint lower (s : string) : string :=
  match s with
  | EmptyString => EmptyString
  | String c s' => String (lower_ascii c) (lower s')
  end.

(** [k in v] for a string [k] and an arbitrary object [v]. *)
Definition py_in (k : string) (v : value) : result bool :=
  match v with
  | VDict d => Ok (key_in k d)
  | VList l => Ok (existsb (λ x, match x with VStr s => String.eqb k s | _ => false end) l)
  | VStr s => Ok (str_contains s k)
  | VNone | VNum _ => Raise TypeError
  end.

(** [v[k]] for a string [k] and an arbitrary object [v]. *)
Definition py_getitem (v : value) (k : string) : result value :=
  match v with
  | VDict d => dict_getitem d k
  | _ => Raise TypeError
  end.

(** [acc += v] where [acc] is a number. *)
Definition py_add (acc : float) (v : value) : result float :=
  match v with
  | VNum x => Ok (PrimFloat.add acc x)
  | _ => Raise TypeError
  end.

(** [v == 0] used as a condition. *)
Definition py_eq_zero (v : value) : bool :=
  match v with
  | VNum x => PrimFloat.eqb x 0%float
  | _ => false
  end.

(** ** Collaborators *)

(** The five calling conventions of [decoders[task].forward]. *)
Inductive decoder_call : Type :=
| CallClassification (embedded_text_sent gold : value)
| CallDependency (embedded_text mask gold_head_tags gold_head_indices : value)
| CallUnsupervised (embedded_text gold : value)
| CallSeq2seq (embedded_text mask gold : value)
| CallTagger (embedded_text gold mask : value).

(** A decoder object: its running metric state and its three methods.
    [dec_get_metrics reset] returns the items of the reported dictionary, in
    order, and the new metric state. *)
Record decoder : Type := {
  dec_state : value;
  dec_forward : decoder_call → gmap string value;
  dec_human : value → value;
  dec_human_dep : value → value → value → value * value;
  dec_get_metrics : bool → value → list (string * value) * value
}.

Definition set_dec_state (d : decoder) (s : value) : decoder :=
  {| dec_state := s;
     dec_forward := dec_forward d;
     dec_human := dec_human d;
     dec_human_dep := dec_human_dep d;
     dec_get_metrics := dec_get_metrics d |}.

Record MachampModel : Type := {
  text_field_embedder : value → value;
  encoder : value → value → value;
  get_text_field_mask : value → value;
  (** [_dropout] and [_dropout_sents]; [None] when no dropout is configured *)
  dropout : option ((value → value) * (value → value));
  decoders : gmap string decoder;
  tasks : list string;
  task_types : list string
}.

(** One entry of [metadata]. *)
Record meta : Type := {
  md_tokens : value;
  md_full_data : value;
  md_col_idxs : gmap string value
}.

(** [metadata[0]['col_idxs']]; [metadata] defaults to [None]. *)
Definition first_col_idxs (metadata : option (list meta)) : result (gmap string value) :=
  match metadata with
  | None => Raise TypeError
  | Some [] => Raise IndexError
  | Some (m0 :: _) => Ok (md_col_idxs m0)
  end.

(** ** forward *)

(** The test of lines 64-66 for one registry entry. *)
Definition is_active (col_idxs : gmap string value) (task task_type : string) : bool :=
  let s2s_and_in :=
    bool_decide (task_type = "seq2seq") && key_in (task +:+ "_target_words") col_idxs in
  let dep_and_in :=
    bool_decide (task_type = "dependency") && key_in (task +:+ "_rels") col_idxs in
  s2s_and_in || dep_and_in || key_in task col_idxs.

(** The first loop of [forward]: it grows [tasks_to_handle] and
    [task_types_to_handle] in step, reading [metadata[0]['col_idxs']] at
    every iteration. *)
Fixpoint select_tasks (metadata : option (list meta)) (registry : list (string * string))
    (acc : list string * list string) : result (list string * list string) :=
  match registry with
  | [] => Ok acc
  | (task, task_type) :: rest =>
      col_idxs ← first_col_idxs metadata;
      select_tasks metadata rest
        (if is_active col_idxs task task_type
         then (acc.1 ++ [task], acc.2 ++ [task_type])
         else acc)
  end.

(** [None if k not in gold_labels else gold_labels[k]]. *)
Definition gold_or_none (gold_labels : gmap string value) (k : string) : value :=
  default VNone (gold_labels !! k).

(** [self.decoders[task]]. *)
Definition get_decoder (m : MachampModel) (task : string) : result decoder :=
  match decoders m !! task with
  | Some d => Ok d
  | None => Raise (KeyError task)
  end.

(** The test of lines 116-118. *)
Definition contributes (gold_labels : gmap string value) (task task_type : string) : bool :=
  let dep_and_in :=
    bool_decide (task_type = "dependency") && key_in (task +:+ "_rels") gold_labels in
  let s2s_and_in :=
    bool_decide (task_type = "seq2seq") && key_in (task +:+ "_target_words") gold_labels in
  dep_and_in || s2s_and_in || key_in task gold_labels.

Section Dispatch.
Variable m : MachampModel.
Variables embedded_text mask : value.
(** unbound unless a classification task is active *)
Variable embedded_text_sent : option value.
Variable gold_labels : gmap string value.

(** Lines 89-111: the call of the task's decoder and the entries it adds to
    [class_probabilities]. *)
Definition call_decoder (task task_type : string) (class_probabilities : gmap string value)
    : result (gmap string value * gmap string value) :=
  if bool_decide (task_type = "classification") then
    let task_gold_labels := gold_or_none gold_labels task in
    d ← get_decoder m task;
    sent ← match embedded_text_sent with
           | Some e => Ok e
           | None => Raise UnboundLocalError
           end;
    let pred_output := dec_forward d (CallClassification sent task_gold_labels) in
    p ← dict_getitem pred_output "class_probabilities";
    Ok (pred_output, <[task := p]> class_probabilities)
  else if bool_decide (task_type = "dependency") then
    let tags_gold_labels := gold_or_none gold_labels (task +:+ "_rels") in
    let indices_gold_labels := gold_or_none gold_labels (task +:+ "_head_indices") in
    d ← get_decoder m task;
    let pred_output :=
      dec_forward d (CallDependency embedded_text mask tags_gold_labels indices_gold_labels) in
    r ← dict_getitem pred_output (task +:+ "_rels");
    let class_probabilities := <[task +:+ "_rels" := r]> class_probabilities in
    h ← dict_getitem pred_output (task +:+ "_head_indices");
    Ok (pred_output, <[task +:+ "_head_indices" := h]> class_probabilities)
  else if bool_decide (task_type = "unsupervised") then
    let task_gold_labels := gold_or_none gold_labels task in
    d ← get_decoder m task;
    Ok (dec_forward d (CallUnsupervised embedded_text task_gold_labels), class_probabilities)
  else if bool_decide (task_type = "seq2seq") then
    let task_gold_labels := gold_or_none gold_labels (task +:+ "_target") in
    d ← get_decoder m task;
    let pred_output := dec_forward d (CallSeq2seq embedded_text mask task_gold_labels) in
    p ← dict_getitem pred_output "class_probabilities";
    Ok (pred_output, <[task := p]> class_probabilities)
  else
    let task_gold_labels := gold_or_none gold_labels task in
    d ← get_decoder m task;
    let pred_output := dec_forward d (CallTagger embedded_text task_gold_labels mask) in
    p ← dict_getitem pred_output "class_probabilities";
    Ok (pred_output, <[task := p]> class_probabilities).

(** One iteration of the loop of lines 88-119 on the state
    [(logits, class_probabilities, loss)]. *)
Definition handle_task (st : gmap string value * gmap string value * float)
    (task task_type : string) : result (gmap string value * gmap string value * float) :=
  let '(logits, class_probabilities, loss) := st in
  '(pred_output, class_probabilities) ← call_decoder task task_type class_probabilities;
  let logits :=
    match pred_output !! "loss" with
    | Some l => <[task := l]> logits
    | None => logits
    end in
  if contributes gold_labels task task_type then
    l ← dict_getitem pred_output "loss";
    loss ← py_add loss l;
    Ok (logits, class_probabilities, loss)
  else Ok (logits, class_probabilities, loss).

Fixpoint handle_tasks (todo : list (string * string))
    (st : gmap string value * gmap string value * float)
    : result (gmap string value * gmap string value * float) :=
  match todo with
  | [] => Ok st
  | (task, task_type) :: rest =>
      st ← handle_task st task task_type;
      handle_tasks rest st
  end.
End Dispatch.

(** [pred_output] of a task: what its decoder returns for the call built at
    lines 89-111, whatever [class_probabilities] holds at that point. *)
Definition decoder_output (m : MachampModel) (embedded_text mask : value)
    (embedded_text_sent : option value) (gold_labels : gmap string value)
    (task task_type : string) : result (gmap string value) :=
  fst <$> call_decoder m embedded_text mask embedded_text_sent gold_labels task task_type ∅.

(** The entries copied from [metadata] (lines 124-131). *)
Definition add_metadata (m : MachampModel) (metadata : option (list meta))
    (output_dict : gmap string value) : gmap string value :=
  match metadata with
  | None => output_dict
  | Some md =>
      let output_dict := <["tokens" := VList (md_tokens <$> md)]> output_dict in
      let output_dict := <["full_data" := VList (md_full_data <$> md)]> output_dict in
      let output_dict :=
        <["col_idxs" := VList ((λ x, VDict (md_col_idxs x)) <$> md)]> output_dict in
      let output_dict :=
        <["tasks" := VList ((λ _, VList (VStr <$> tasks m)) <$> md)]> output_dict in
      <["task_types" := VList ((λ _, VList (VStr <$> task_types m)) <$> md)]> output_dict
  end.

(** Lines 70-80: the token-level representation, and the sentence-level one
    when a classification task was selected; dropout applied to each. *)
Definition shared_representation (m : MachampModel) (tokens mask : value)
    (task_types_to_handle : list string) : value * option value :=
  let sent_count := length (filter (λ ty, ty = "classification") task_types_to_handle) in
  let embedded_text := text_field_embedder m tokens in
  let embedded_text_sent :=
    if bool_decide (0 < sent_count)
    then Some (encoder m (text_field_embedder m tokens) mask) else None in
  match dropout m with
  | Some (_dropout, _dropout_sents) =>
      (_dropout embedded_text, _dropout_sents <$> embedded_text_sent)
  | None => (embedded_text, embedded_text_sent)
  end.

Definition forward (m : MachampModel) (tokens : value) (metadata : option (list meta))
    (gold_labels : gmap string value) : result (gmap string value) :=
  '(tasks_to_handle, task_types_to_handle) ←
    select_tasks metadata (zip (tasks m) (task_types m)) ([], []);
  let mask := get_text_field_mask m tokens in
  let '(embedded_text, embedded_text_sent) :=
    shared_representation m tokens mask task_types_to_handle in
  '(logits, class_probabilities, loss) ←
    handle_tasks m embedded_text mask embedded_text_sent gold_labels
      (zip tasks_to_handle task_types_to_handle) (∅, ∅, 0%float);
  let output_dict : gmap string value :=
    <["class_probabilities" := VDict class_probabilities]> (<["logits" := VDict logits]> ∅) in
  let output_dict :=
    if bool_decide (gold_labels = ∅) then output_dict
    else <["loss" := VNum loss]> output_dict in
  let output_dict := add_metadata m metadata output_dict in
  Ok (<["mask" := mask]> output_dict).

(** ** make_output_human_readable *)

(** [l.index(x)]: the first position of [x]. *)
Fixpoint list_index (x : string) (l : list string) : option nat :=
  match l with
  | [] => None
  | y :: l' => if bool_decide (y = x) then Some 0 else S <$> list_index x l'
  end.

(** [self.task_types[self.tasks.index(task)]]. *)
Definition task_type_of (m : MachampModel) (task : string) : result string :=
  match list_index task (tasks m) with
  | None => Raise ValueError
  | Some i =>
      match task_types m !! i with
      | Some task_type => Ok task_type
      | None => Raise IndexError
      end
  end.

(** The body of the loop of lines 140-149.  The bundle is only written after
    all the reads of an iteration, so [output_dict['class_probabilities']] is
    read once. *)
Definition humanize_task (m : MachampModel) (output_dict : gmap string value)
    (task : string) : result (gmap string value) :=
  task_type ← task_type_of m task;
  let is_dep := bool_decide (task_type = "dependency") in
  class_probabilities ← dict_getitem output_dict "class_probabilities";
  here ← py_in task class_probabilities;
  if here : bool then
    d ← get_decoder m task;
    p ← py_getitem class_probabilities task;
    Ok (<[task := dec_human d p]> output_dict)
  else if is_dep then
    rels_here ← py_in (task +:+ "_rels") class_probabilities;
    if rels_here : bool then
      dep_tags ← py_getitem class_probabilities (task +:+ "_rels");
      dep_heads ← py_getitem class_probabilities (task +:+ "_head_indices");
      mask ← dict_getitem output_dict "mask";
      d ← get_decoder m task;
      let '(rels, head_indices) := dec_human_dep d dep_tags dep_heads mask in
      Ok (<[task +:+ "_head_indices" := head_indices]>
            (<[task +:+ "_rels" := rels]> output_dict))
    else Ok output_dict
  else Ok output_dict.

Fixpoint humanize_tasks (m : MachampModel) (todo : list string)
    (output_dict : gmap string value) : result (gmap string value) :=
  match todo with
  | [] => Ok output_dict
  | task :: rest =>
      output_dict ← humanize_task m output_dict task;
      humanize_tasks m rest output_dict
  end.

Definition make_output_human_readable (m : MachampModel)
    (output_dict : gmap string value) : result (gmap string value) :=
  output_dict ← humanize_tasks m (tasks m) output_dict;
  loss ← dict_getitem output_dict "loss";
  if py_eq_zero loss then Ok (<["loss" := VList [loss]]> output_dict)
  else Ok output_dict.

(** ** get_metrics *)

(** [metrics[k] = v] on an insertion-ordered dictionary. *)
Fixpoint dict_set (k : string) (v : value) (d : list (string * value))
    : list (string * value) :=
  match d with
  | [] => [(k, v)]
  | (k', v') :: d' =>
      if bool_decide (k' = k) then (k, v) :: d' else (k', v') :: dict_set k v d'
  end.

Fixpoint dict_get (k : string) (d : list (string * value)) : option value :=
  match d with
  | [] => None
  | (k', v') :: d' => if bool_decide (k' = k) then Some v' else dict_get k d'
  end.

(** The chain of tests of lines 161-174 for one reported metric: the value to
    store, or [None] for a name that is not recognized. *)
Definition extract_metric (name : string) (task_metric : value) : result (option value) :=
  let suffix := last_component name in
  if bool_decide (suffix ∈ ["acc"; "ppl"]) then Ok (Some task_metric)
  else if bool_decide (lower suffix ∈ ["las"]) then
    Some <$> py_getitem task_metric "LAS"
  else if bool_decide (suffix ∈ ["micro-f1"; "macro-f1"]) then
    Some <$> py_getitem task_metric "fscore"
  else if bool_decide (suffix = "span_f1") then
    Some <$> py_getitem task_metric "f1-measure-overall"
  else if bool_decide (suffix = "multi_span_f1") then
    Some <$> py_getitem task_metric "f1-measure-overall"
  else if bool_decide (suffix = "bleu") then
    Some <$> py_getitem task_metric "BLEU"
  else Ok None.

Definition unrecognized_message (name : string) : string :=
  "ERROR. Metric: " +:+ name +:+ " unrecognized.".

(** The inner loop of line 160 over the items one decoder reports; the second
    component is the error log. *)
Fixpoint extract_items (items : list (string * value))
    (metrics : list (string * value)) (log : list string)
    : result (list (string * value)) * list string :=
  match items with
  | [] => (Ok metrics, log)
  | (name, task_metric) :: rest =>
      match extract_metric name task_metric with
      | Raise e => (Raise e, log)
      | Ok (Some v) => extract_items rest (dict_set name v metrics) log
      | Ok None => extract_items rest metrics (log ++ [unrecognized_message name])
      end
  end.

Definition set_decoder (m : MachampModel) (task : string) (d : decoder) : MachampModel :=
  {| text_field_embedder := text_field_embedder m;
     encoder := encoder m;
     get_text_field_mask := get_text_field_mask m;
     dropout := dropout m;
     decoders := <[task := d]> (decoders m);
     tasks := tasks m;
     task_types := task_types m |}.

(** The outer loop of lines 159-174.  Querying a decoder may change its
    metric state, so the model is threaded through. *)
Fixpoint collect_metrics (reset : bool) (todo : list string) (m : MachampModel)
    (metrics : list (string * value)) (log : list string)
    : result (list (string * value)) * list string * MachampModel :=
  match todo with
  | [] => (Ok metrics, log, m)
  | task :: rest =>
      match get_decoder m task with
      | Raise e => (Raise e, log, m)
      | Ok d =>
          let '(items, s) := dec_get_metrics d reset (dec_state d) in
          let m := set_decoder m task (set_dec_state d s) in
          match extract_items items metrics log with
          | (Raise e, log) => (Raise e, log, m)
          | (Ok metrics, log) => collect_metrics reset rest m metrics log
          end
      end
  end.

(** Lines 176-178. *)
Definition metrics_to_track (m : MachampModel) : list string :=
  (λ '(task, task_type),
     if bool_decide (task_type ≠ "dependency") then task else "las")
  <$> zip (tasks m) (task_types m).

(** The condition of line 182. *)
Definition is_tracked (track : list string) (name : string) : bool :=
  negb (startswith name "_") &&
  existsb (λ c, bool_decide (c ∈ track)) (split "/"%char name).

(** The loop of lines 181-184. *)
Fixpoint sum_metrics (track : list string) (metrics : list (string * value))
    (metric_sum : float) : result float :=
  match metrics with
  | [] => Ok metric_sum
  | (name, metric) :: rest =>
      if is_tracked track name then
        if negb (endswith name "ppl") then
          metric_sum ← py_add metric_sum metric;
          sum_metrics track rest metric_sum
        else sum_metrics track rest metric_sum
      else sum_metrics track rest metric_sum
  end.

Definition get_metrics (m : MachampModel) (reset : bool)
    : result (list (string * value)) * list string * MachampModel :=
  match collect_metrics reset (tasks m) m [] [] with
  | (Raise e, log, m') => (Raise e, log, m')
  | (Ok metrics, log, m') =>
      match sum_metrics (metrics_to_track m') metrics 0%float with
      | Raise e => (Raise e, log, m')
      | Ok metric_sum => (Ok (dict_set ".run/.sum" (VNum metric_sum) metrics), log, m')
      end
  end.

(** ** The statements of the specification *)

(** The key that decides activity in the words of the specification: one key
    per task type. *)
Definition spec_type_key (task task_type : string) : string :=
  if bool_decide (task_type = "seq2seq") then task +:+ "_target_words"
  else if bool_decide (task_type = "dependency") then task +:+ "_rels"
  else task.

(** The selector as the specification words it: a registered task is selected
    exactly when its type-specific key is a column of the first example. *)
Definition selector_per_type_rule : Prop :=
  ∀ metadata col_idxs registry ts tys task task_type,
    first_col_idxs metadata = Ok col_idxs →
    select_tasks metadata registry ([], []) = Ok (ts, tys) →
    (task, task_type) ∈ registry →
    (task, task_type) ∈ zip ts tys ↔ key_in (spec_type_key task task_type) col_idxs.

(** What the selector does: the plain task name selects a task of any type. *)
Definition selected (col_idxs : gmap string value) (task task_type : string) : Prop :=
  key_in task col_idxs ∨
  (task_type = "seq2seq" ∧ key_in (task +:+ "_target_words") col_idxs) ∨
  (task_type = "dependency" ∧ key_in (task +:+ "_rels") col_idxs).

(** ** Concrete models and batches *)

(** A batch whose column index holds the plain task name [t] only. *)
Definition plain_column : gmap string value := {[ "t" := VNum 1%float ]}.
Definition plain_batch : list meta :=
  [ {| md_tokens := VNone; md_full_data := VNone; md_col_idxs := plain_column |} ].

Definition s2s_model : MachampModel :=
  {| text_field_embedder := λ v, v;
     encoder := λ v _, v;
     get_text_field_mask := λ _, VNone;
     dropout := None;
     decoders := ∅;
     tasks := ["t"; "u"];
     task_types := ["seq2seq"; "dependency"] |}.

(** A decoder that reports a loss of [1.0] whatever it is called with. *)
Definition unit_loss_decoder : decoder :=
  {| dec_state := VNone;
     dec_forward := λ _,
       {[ "class_probabilities" := VList [VNum 0.5%float];
          "t_rels" := VList [VNum 0.25%float];
          "t_head_indices" := VList [VNum 0.75%float];
          "loss" := VNum 1%float ]};
     dec_human := λ _, VStr "label";
     dec_human_dep := λ _ _ _, (VStr "rels", VStr "heads");
     dec_get_metrics := λ _ s, ([], s) |}.

Definition dep_model : MachampModel :=
  {| text_field_embedder := λ v, v;
     encoder := λ v _, v;
     get_text_field_mask := λ _, VNone;
     dropout := None;
     decoders := {[ "t" := unit_loss_decoder ]};
     tasks := ["t"];
     task_types := ["dependency"] |}.

Definition tagger_model : MachampModel :=
  {| text_field_embedder := λ v, v;
     encoder := λ v _, v;
     get_text_field_mask := λ _, VNone;
     dropout := None;
     decoders := {[ "t" := unit_loss_decoder ]};
     tasks := ["t"];
     task_types := ["seq"] |}.

(** A batch of a dependency data set: the columns of [t] are [t_rels] and
    [t_head_indices]. *)
Definition dep_batch : list meta :=
  [ {| md_tokens := VNone; md_full_data := VNone;
       md_col_idxs := {[ "t_rels" := VNum 1%float; "t_head_indices" := VNum 2%float ]} |} ].

(** A batch with no column at all. *)
Definition bare_batch : list meta :=
  [ {| md_tokens := VNone; md_full_data := VNone; md_col_idxs := ∅ |} ].

(** A gold-label bundle that holds the plain task name only. *)
Definition plain_gold : gmap string value := {[ "t" := VNum 3%float ]}.

(** The loss of a task in a batch: [pred_output['loss']], as a number. *)
Definition task_loss (m : MachampModel) (tokens : value) (task_types_to_handle : list string)
    (gold_labels : gmap string value) (p : string * string) (x : float) : Prop :=
  let mask := get_text_field_mask m tokens in
  let rep := shared_representation m tokens mask task_types_to_handle in
  ∃ pred_output,
    decoder_output m rep.1 mask rep.2 gold_labels p.1 p.2 = Ok pred_output ∧
    pred_output !! "loss" = Some (VNum x).

(** The sum that [loss = 0.0; loss += x1; loss += x2; ...] computes. *)
Definition float_sum (xs : list float) : float := fold_left PrimFloat.add xs 0%float.

(** The loss aggregator as the specification words it: the loss is the sum
    over the selected tasks whose type-specific key is in the gold bundle. *)
Definition loss_per_type_rule : Prop :=
  ∀ m tokens metadata gold_labels output_dict ts tys,
    gold_labels ≠ ∅ →
    forward m tokens metadata gold_labels = Ok output_dict →
    select_tasks metadata (zip (tasks m) (task_types m)) ([], []) = Ok (ts, tys) →
    ∃ xs,
      Forall2 (task_loss m tokens tys gold_labels)
        (filter (λ p, key_in (spec_type_key p.1 p.2) gold_labels) (zip ts tys)) xs ∧
      output_dict !! "loss" = Some (VNum (float_sum xs)).

(** The empty selection as the specification words it. *)
Definition empty_selection_rule : Prop :=
  ∀ m tokens metadata gold_labels output_dict,
    forward m tokens metadata gold_labels = Ok output_dict →
    select_tasks metadata (zip (tasks m) (task_types m)) ([], []) = Ok ([], []) →
    output_dict !! "loss" = None ∧
    output_dict !! "class_probabilities" = Some (VDict ∅) ∧
    ∀ reset log m',
      collect_metrics reset (tasks m) m [] [] = (Ok [], log, m') →
      get_metrics m reset = (Ok [(".run/.sum", VNum 0%float)], log, m').

(** The bundle [forward] returns for [dep_model] on [dep_batch] with
    [plain_gold]. *)
Definition dep_output : gmap string value :=
  <["mask" := VNone]>
    (add_metadata dep_model (Some dep_batch)
       (<["loss" := VNum 1%float]>
          (<["class_probabilities" :=
               VDict (<["t_head_indices" := VList [VNum 0.75%float]]>
                        (<["t_rels" := VList [VNum 0.25%float]]> ∅))]>
             (<["logits" := VDict (<["t" := VNum 1%float]> ∅)]> ∅)))).

(** The bundle [forward] returns for [tagger_model] on [bare_batch] with
    [plain_gold]: no task is selected. *)
Definition bare_output : gmap string value :=
  <["mask" := VNone]>
    (add_metadata tagger_model (Some bare_batch)
       (<["loss" := VNum 0%float]>
          (<["class_probabilities" := VDict ∅]> (<["logits" := VDict ∅]> ∅)))).

(** The vocabulary of metric names: the suffixes the chain of tests of
    [get_metrics] accepts. *)
Definition recognized (name : string) : bool :=
  let suffix := last_component name in
  bool_decide (suffix ∈ ["acc"; "ppl"; "micro-f1"; "macro-f1"; "span_f1";
                         "multi_span_f1"; "bleu"])
  || bool_decide (lower suffix = "las").

(** A metric counts for the composite score: a component of its name is
    tracked, the name does not start with an underscore and does not end in
    [ppl]. *)
Definition counted (track : list string) (name : string) : bool :=
  bool_decide (Exists (λ c, c ∈ track) (split "/"%char name))
  && negb (startswith name "_") && negb (endswith name "ppl").

(** A decoder that reports nothing the reducer does not recognize. *)
Definition censor_decoder (d : decoder) : decoder :=
  {| dec_state := dec_state d;
     dec_forward := dec_forward d;
     dec_human := dec_human d;
     dec_human_dep := dec_human_dep d;
     dec_get_metrics := λ reset s,
       let '(items, s') := dec_get_metrics d reset s in
       (filter (λ e, recognized e.1) items, s') |}.

Definition censor (m : MachampModel) : MachampModel :=
  {| text_field_embedder := text_field_embedder m;
     encoder := encoder m;
     get_text_field_mask := get_text_field_mask m;
     dropout := dropout m;
     decoders := censor_decoder <$> decoders m;
     tasks := tasks m;
     task_types := task_types m |}.

(** Decoders with a fixed report; the metric state counts the resets. *)
Definition reporting_decoder (items : list (string * value)) : decoder :=
  {| dec_state := VList [];
     dec_forward := λ _, ∅;
     dec_human := λ v, v;
     dec_human_dep := λ r h _, (r, h);
     dec_get_metrics := λ reset s,
       (items, if reset : bool then VList [VNone] else s) |}.

(** The example of the specification: [task_a] reports an accuracy, the
    dependency task [task_b] reports attachment scores. *)
Definition metric_model : MachampModel :=
  {| text_field_embedder := λ v, v;
     encoder := λ v _, v;
     get_text_field_mask := λ _, VNone;
     dropout := None;
     decoders :=
       {[ "task_a" := reporting_decoder [("task_a/acc", VNum 0.8%float)];
          "task_b" := reporting_decoder
                        [("task_b/las",
                          VDict {[ "LAS" := VNum 0.6%float; "UAS" := VNum 0.7%float ]})] ]};
     tasks := ["task_a"; "task_b"];
     task_types := ["classification"; "dependency"] |}.

(** The same model when [task_b] also reports a metric with an unknown
    suffix. *)
Definition noisy_metric_model : MachampModel :=
  {| text_field_embedder := λ v, v;
     encoder := λ v _, v;
     get_text_field_mask := λ _, VNone;
     dropout := None;
     decoders :=
       {[ "task_a" := reporting_decoder [("task_a/acc", VNum 0.8%float)];
          "task_b" := reporting_decoder
                        [("task_b/speed", VNum 12%float);
                         ("task_b/las",
                          VDict {[ "LAS" := VNum 0.6%float; "UAS" := VNum 0.7%float ]})] ]};
     tasks := ["task_a"; "task_b"];
     task_types := ["classification"; "dependency"] |}.

(** [bare_output] with a loss that is small but not zero. *)
Definition small_loss_output : gmap string value :=
  <["loss" := VNum 0.0001%float]> bare_output.

(** The bundle [forward] returns for [dep_model] on [dep_batch] without gold
    labels. *)
Definition inference_output : gmap string value :=
  <["mask" := VNone]>
    (add_metadata dep_model (Some dep_batch)
       (<["class_probabilities" :=
            VDict (<["t_head_indices" := VList [VNum 0.75%float]]>
                     (<["t_rels" := VList [VNum 0.25%float]]> ∅))]>
          (<["logits" := VDict (<["t" := VNum 1%float]> ∅)]> ∅))).

(** What the humanizer does on a bundle without [loss]: it never returns, and
    once its loop over the tasks is through it raises [KeyError: 'loss']. *)
Definition raises_for_loss (m : MachampModel) (output_dict : gmap string value) : Prop :=
  (∀ output_dict', make_output_human_readable m output_dict ≠ Ok output_dict') ∧
  (∀ output_dict',
     humanize_tasks m (tasks m) output_dict = Ok output_dict' →
     make_output_human_readable m output_dict = Raise (KeyError "loss")).

(** No task that writes its own name into [class_probabilities] is named
    like one of the two keys of a dependency task. *)
Definition distinct_keys (m : MachampModel) : Prop :=
  ∀ t task_type d,
    (t, task_type) ∈ zip (tasks m) (task_types m) →
    task_type ≠ "dependency" → task_type ≠ "unsupervised" →
    (d, "dependency") ∈ zip (tasks m) (task_types m) →
    t ≠ d +:+ "_rels" ∧ t ≠ d +:+ "_head_indices".

(** The two entries of every dependency task are present together. *)
Definition dependency_pairs (m : MachampModel) (class_probabilities : gmap string value)
    : Prop :=
  ∀ d,
    (d, "dependency") ∈ zip (tasks m) (task_types m) →
    is_Some (class_probabilities !! (d +:+ "_rels")) ↔
    is_Some (class_probabilities !! (d +:+ "_head_indices")).

(** A parser [t] and a tagger [pos] trained together. *)
Definition two_task_model : MachampModel :=
  {| text_field_embedder := λ v, v;
     encoder := λ v _, v;
     get_text_field_mask := λ _, VNone;
     dropout := None;
     decoders := {[ "t" := unit_loss_decoder; "pos" := unit_loss_decoder ]};
     tasks := ["t"; "pos"];
     task_types := ["dependency"; "seq"] |}.

Definition two_task_batch : list meta :=
  [ {| md_tokens := VNone; md_full_data := VNone;
       md_col_idxs := {[ "t_rels" := VNum 1%float; "t_head_indices" := VNum 2%float;
                         "pos" := VNum 3%float ]} |} ].

(** The bundle [forward] returns for [two_task_model] on [two_task_batch]
    without gold labels. *)
Definition two_task_output : gmap string value :=
  <["mask" := VNone]>
    (add_metadata two_task_model (Some two_task_batch)
       (<["class_probabilities" :=
            VDict (<["pos" := VList [VNum 0.5%float]]>
                     (<["t_head_indices" := VList [VNum 0.75%float]]>
                        (<["t_rels" := VList [VNum 0.25%float]]> ∅)))]>
          (<["logits" := VDict (<["pos" := VNum 1%float]> (<["t" := VNum 1%float]> ∅))]>
             ∅))).

(** The final step of the humanizer as the specification words it. *)
Definition zero_loss_rule : Prop :=
  ∀ m output_dict output_dict' x,
    output_dict !! "loss" = Some (VNum x) →
    make_output_human_readable m output_dict = Ok output_dict' →
    output_dict' !! "loss" =
      Some (if PrimFloat.eqb x 0%float then VList [VNum x] else VNum x).

(** The humanizer on a bundle without [loss], as the claim words it. *)
Definition missing_loss_rule : Prop :=
  ∀ m output_dict,
    output_dict !! "loss" = None →
    ∃ k, make_output_human_readable m output_dict = Raise (KeyError k).

(** The entries of the dependency tasks, as the claim words them. *)
Definition paired_entries_rule : Prop :=
  ∀ m tokens metadata gold_labels output_dict,
    forward m tokens metadata gold_labels = Ok output_dict →
    ∃ class_probabilities,
      output_dict !! "class_probabilities" = Some (VDict class_probabilities) ∧
      dependency_pairs m class_probabilities ∧
      ∀ task,
        task_type_of m task = Ok "dependency" →
        key_in (task +:+ "_rels") class_probabilities →
        ∃ v, py_getitem (VDict class_probabilities) (task +:+ "_head_indices") = Ok v.

(** A model whose only task is called [loss]. *)
Definition loss_model : MachampModel :=
  {| text_field_embedder := λ v, v;
     encoder := λ v _, v;
     get_text_field_mask := λ _, VNone;
     dropout := None;
     decoders := {[ "loss" := unit_loss_decoder ]};
     tasks := ["loss"];
     task_types := ["seq"] |}.

Definition loss_batch : list meta :=
  [ {| md_tokens := VNone; md_full_data := VNone;
       md_col_idxs := {[ "loss" := VNum 1%float ]} |} ].

Definition loss_gold : gmap string value := {[ "loss" := VNum 3%float ]}.

(** The bundles [forward] returns for [loss_model] on [loss_batch], with
    [loss_gold] and without gold labels. *)
Definition loss_task_output : gmap string value :=
  <["mask" := VNone]>
    (add_metadata loss_model (Some loss_batch)
       (<["loss" := VNum 1%float]>
          (<["class_probabilities" := VDict (<["loss" := VList [VNum 0.5%float]]> ∅)]>
             (<["logits" := VDict (<["loss" := VNum 1%float]> ∅)]> ∅)))).

Definition loss_task_inference_output : gmap string value :=
  <["mask" := VNone]>
    (add_metadata loss_model (Some loss_batch)
       (<["class_probabilities" := VDict (<["loss" := VList [VNum 0.5%float]]> ∅)]>
          (<["logits" := VDict (<["loss" := VNum 1%float]> ∅)]> ∅))).

(** A parser [d] trained with a sequence-to-sequence task called [d_rels],
    and a batch of the latter's data set. *)
Definition clash_model : MachampModel :=
  {| text_field_embedder := λ v, v;
     encoder := λ v _, v;
     get_text_field_mask := λ _, VNone;
     dropout := None;
     decoders := {[ "d" := unit_loss_decoder; "d_rels" := unit_loss_decoder ]};
     tasks := ["d"; "d_rels"];
     task_types := ["dependency"; "seq2seq"] |}.

Definition clash_batch : list meta :=
  [ {| md_tokens := VNone; md_full_data := VNone;
       md_col_idxs := {[ "d_rels_target_words" := VNum 1%float ]} |} ].

Definition clash_output : gmap string value :=
  <["mask" := VNone]>
    (add_metadata clash_model (Some clash_batch)
       (<["class_probabilities" := VDict (<["d_rels" := VList [VNum 0.5%float]]> ∅)]>
          (<["logits" := VDict (<["d_rels" := VNum 1%float]> ∅)]> ∅))).

(** The items the decoders of [todo] report when [get_metrics] queries them
    one after the other, in the order of the queries. *)
Fixpoint reported_items (reset : bool) (todo : list string) (m : MachampModel)
    : list (string * value) :=
  match todo with
  | [] => []
  | task :: rest =>
      match decoders m !! task with
      | None => []
      | Some d =>
          let '(items, s) := dec_get_metrics d reset (dec_state d) in
          items ++ reported_items reset rest (set_decoder m task (set_dec_state d s))
      end
  end.

(** The names among [items] that have no recognized suffix, in order. *)
Definition unrecognized_names (items : list (string * value)) : list string :=
  filter (λ name, recognized name = false) items.*1.

(** * Properties *)

(** ** The error monad *)

Lemma bind_Ok {A B} (r : result A) (f : A → result B) (b : B) :
  r ≫= f = Ok b → ∃ a, r = Ok a ∧ f a = Ok b.
Proof. destruct r as [a|e]; [eauto | discriminate]. Qed.

Lemma bind_Ok_eq {A B} (r : result A) (f : A → result B) (a : A) :
  r = Ok a → r ≫= f = f a.
Proof. by intros ->. Qed.

Ltac inv_bind H :=
  let a := fresh "a" in
  let Ha := fresh "Ha" in
  apply bind_Ok in H; destruct H as (a & Ha & H).

(** ** Batch task selector *)

Lemma select_tasks_ok metadata col_idxs registry acc :
  first_col_idxs metadata = Ok col_idxs →
  select_tasks metadata registry acc =
    Ok (acc.1 ++ (filter (λ p, is_active col_idxs p.1 p.2) registry).*1,
        acc.2 ++ (filter (λ p, is_active col_idxs p.1 p.2) registry).*2).
Proof.
  intros Hcol. revert acc.
  induction registry as [|[task task_type] rest IH]; intros [ts tys]; simpl.
  - by rewrite !app_nil_r.
  - rewrite Hcol. simpl. rewrite IH. rewrite filter_cons. simpl.
    destruct (is_active col_idxs task task_type) eqn:Hact; simpl.
    + by rewrite <- !app_assoc.
    + done.
Qed.

Lemma select_tasks_zip metadata registry ts tys :
  select_tasks metadata registry ([], []) = Ok (ts, tys) →
  match registry with
  | [] => zip ts tys = []
  | _ :: _ =>
      ∃ col_idxs, first_col_idxs metadata = Ok col_idxs ∧
        zip ts tys = filter (λ p, is_active col_idxs p.1 p.2) registry
  end.
Proof.
  destruct registry as [|[task task_type] rest].
  - simpl. by intros [= <- <-].
  - intros H. destruct (first_col_idxs metadata) as [col_idxs|e] eqn:Hcol.
    + exists col_idxs. split; [done|].
      rewrite (select_tasks_ok _ _ _ _ Hcol) in H. simpl in H.
      injection H as <- <-. apply zip_fst_snd.
    + simpl in H. by rewrite Hcol in H.
Qed.

Lemma is_active_selected col_idxs task task_type :
  is_active col_idxs task task_type ↔ selected col_idxs task task_type.
Proof.
  unfold is_active, selected.
  rewrite !orb_True, !andb_True, !bool_decide_spec. tauto.
Qed.

(** C2, as stated, fails: a sequence-to-sequence task [t] is selected for a
    batch whose columns hold [t] but not [t_target_words]. *)
Lemma selector_per_type_rule_fails : ¬ selector_per_type_rule.
Proof.
  intros H.
  specialize (H (Some plain_batch) plain_column [("t", "seq2seq")] ["t"] ["seq2seq"]
                "t" "seq2seq" eq_refl).
  assert (Hsel : select_tasks (Some plain_batch) [("t", "seq2seq")] ([], [])
                 = Ok (["t"], ["seq2seq"])) by (vm_compute; reflexivity).
  specialize (H Hsel (list_elem_of_here _ _)).
  apply proj1 in H. specialize (H (list_elem_of_here _ _)).
  vm_compute in H. exact H.
Qed.

(** C2, amended: a registry entry is selected if and only if the first
    example's columns hold the task name, or the task is sequence-to-sequence
    and they hold [<task>_target_words], or the task is a dependency task and
    they hold [<task>_rels]; the selected entries keep the registry's order. *)
Theorem selected_iff m metadata col_idxs ts tys :
  first_col_idxs metadata = Ok col_idxs →
  select_tasks metadata (zip (tasks m) (task_types m)) ([], []) = Ok (ts, tys) →
  zip ts tys = filter (λ p, is_active col_idxs p.1 p.2) (zip (tasks m) (task_types m)) ∧
  ∀ task task_type,
    (task, task_type) ∈ zip ts tys ↔
      (task, task_type) ∈ zip (tasks m) (task_types m) ∧ selected col_idxs task task_type.
Proof.
  intros Hcol Hsel.
  rewrite (select_tasks_ok _ _ _ _ Hcol) in Hsel. simpl in Hsel.
  injection Hsel as <- <-. rewrite zip_fst_snd. split; [done|].
  intros task task_type. rewrite list_elem_of_filter. simpl.
  rewrite is_active_selected. tauto.
Qed.

Lemma selected_iff_witness :
  ("t", "seq2seq") ∈ zip ["t"] ["seq2seq"] ↔
    ("t", "seq2seq") ∈ zip (tasks s2s_model) (task_types s2s_model) ∧
    selected plain_column "t" "seq2seq".
Proof.
  refine (proj2 (selected_iff s2s_model (Some plain_batch) plain_column
                   ["t"] ["seq2seq"] _ _) "t" "seq2seq").
  - reflexivity.
  - vm_compute. reflexivity.
Defined.

(** ** forward *)

Lemma add_metadata_lookup m metadata output_dict k :
  k ≠ "tokens" → k ≠ "full_data" → k ≠ "col_idxs" → k ≠ "tasks" → k ≠ "task_types" →
  add_metadata m metadata output_dict !! k = output_dict !! k.
Proof.
  intros. destruct metadata as [md|]; [|done]. simpl.
  by rewrite !lookup_insert_ne.
Qed.

Lemma forward_Ok m tokens metadata gold_labels output_dict :
  forward m tokens metadata gold_labels = Ok output_dict →
  ∃ ts tys logits class_probabilities loss,
    let mask := get_text_field_mask m tokens in
    let rep := shared_representation m tokens mask tys in
    select_tasks metadata (zip (tasks m) (task_types m)) ([], []) = Ok (ts, tys) ∧
    handle_tasks m rep.1 mask rep.2 gold_labels (zip ts tys) (∅, ∅, 0%float)
      = Ok (logits, class_probabilities, loss) ∧
    output_dict !! "logits" = Some (VDict logits) ∧
    output_dict !! "class_probabilities" = Some (VDict class_probabilities) ∧
    output_dict !! "mask" = Some mask ∧
    output_dict !! "loss" =
      if bool_decide (gold_labels = ∅) then None else Some (VNum loss).
Proof.
  unfold forward. intros H.
  inv_bind H. destruct a as [ts tys].
  destruct (shared_representation m tokens (get_text_field_mask m tokens) tys)
    as [embedded_text embedded_text_sent] eqn:Hrep.
  inv_bind H. destruct a as [[logits class_probabilities] loss].
  injection H as <-.
  exists ts, tys, logits, class_probabilities, loss. simpl. rewrite Hrep. simpl.
  split; [done|]. split; [done|].
  rewrite lookup_insert_eq.
  rewrite !lookup_insert_ne by done.
  rewrite !add_metadata_lookup by done.
  case_bool_decide; simplify_map_eq; done.
Qed.

(** C3: [forward] returns whenever its selection loop and its dispatch loop
    do, and the bundle it returns has no [loss] key if the gold-label bundle
    is empty, and has the aggregated loss under [loss] if it is not. *)
Theorem loss_key_iff_gold m tokens metadata gold_labels :
  (∀ ts tys logits class_probabilities loss,
     let mask := get_text_field_mask m tokens in
     let rep := shared_representation m tokens mask tys in
     select_tasks metadata (zip (tasks m) (task_types m)) ([], []) = Ok (ts, tys) →
     handle_tasks m rep.1 mask rep.2 gold_labels (zip ts tys) (∅, ∅, 0%float)
       = Ok (logits, class_probabilities, loss) →
     ∃ output_dict,
       forward m tokens metadata gold_labels = Ok output_dict ∧
       output_dict !! "loss" =
         if bool_decide (gold_labels = ∅) then None else Some (VNum loss)) ∧
  (∀ output_dict,
     forward m tokens metadata gold_labels = Ok output_dict →
     (gold_labels = ∅ → output_dict !! "loss" = None) ∧
     (gold_labels ≠ ∅ → is_Some (output_dict !! "loss"))).
Proof.
  split.
  - intros ts tys logits cp loss mask rep Hsel Hloop. subst mask rep.
    unfold forward. rewrite Hsel. simpl.
    destruct (shared_representation m tokens (get_text_field_mask m tokens) tys)
      as [embedded_text embedded_text_sent].
    simpl in Hloop. rewrite Hloop. simpl. eexists. split; [reflexivity|].
    rewrite lookup_insert_ne by done.
    rewrite add_metadata_lookup by done.
    case_bool_decide; simplify_map_eq; done.
  - intros output_dict H. apply forward_Ok in H.
    destruct H as (ts & tys & logits & cp & loss & _ & _ & _ & _ & _ & Hloss).
    rewrite Hloss. split; intros Hg.
    + by rewrite bool_decide_eq_true_2.
    + by rewrite bool_decide_eq_false_2.
Qed.

Lemma loss_key_iff_gold_witness :
  inference_output !! "loss" = None ∧
  is_Some (dep_output !! "loss") ∧
  ∃ output_dict,
    forward dep_model VNone (Some dep_batch) plain_gold = Ok output_dict ∧
    output_dict !! "loss" =
      if bool_decide (plain_gold = ∅) then None else Some (VNum 1%float).
Proof.
  assert (Hgold : plain_gold ≠ ∅).
  { intros Hempty. apply (f_equal (λ g : gmap string value, g !! "t")) in Hempty.
    vm_compute in Hempty. discriminate. }
  split; [|split].
  - apply (proj2 (loss_key_iff_gold dep_model VNone (Some dep_batch) ∅)
             inference_output); [vm_compute; reflexivity|reflexivity].
  - apply (proj2 (loss_key_iff_gold dep_model VNone (Some dep_batch) plain_gold)
             dep_output); [vm_compute; reflexivity|exact Hgold].
  - apply (proj1 (loss_key_iff_gold dep_model VNone (Some dep_batch) plain_gold)
             ["t"] ["dependency"]
             (<["t" := VNum 1%float]> ∅)
             (<["t_head_indices" := VList [VNum 0.75%float]]>
                (<["t_rels" := VList [VNum 0.25%float]]> ∅))
             1%float); vm_compute; reflexivity.
Defined.

(** ** Loss aggregator *)

Ltac case_bind H :=
  match type of H with
  | (?r ≫= _) = Ok _ =>
      let E := fresh "E" in
      destruct r eqn:E; simpl in H; [|discriminate H]
  end.

Lemma call_decoder_output m embedded_text mask embedded_text_sent gold_labels
    task task_type class_probabilities pred_output class_probabilities' :
  call_decoder m embedded_text mask embedded_text_sent gold_labels
    task task_type class_probabilities = Ok (pred_output, class_probabilities') →
  decoder_output m embedded_text mask embedded_text_sent gold_labels task task_type
    = Ok pred_output.
Proof.
  unfold decoder_output, call_decoder. intros H.
  repeat case_bool_decide; repeat case_bind H; injection H as <- <-; simpl;
    repeat match goal with
           | E : ?r = Ok _ |- context [?r] => rewrite E; simpl
           end; done.
Qed.

Lemma contributes_selected gold_labels task task_type :
  contributes gold_labels task task_type ↔ selected gold_labels task task_type.
Proof.
  unfold contributes, selected.
  rewrite !orb_True, !andb_True, !bool_decide_spec. tauto.
Qed.

Section Loop.
Variable m : MachampModel.
Variables embedded_text mask : value.
Variable embedded_text_sent : option value.
Variable gold_labels : gmap string value.

Let loss_of (p : string * string) (x : float) : Prop :=
  ∃ pred_output,
    decoder_output m embedded_text mask embedded_text_sent gold_labels p.1 p.2
      = Ok pred_output ∧
    pred_output !! "loss" = Some (VNum x).

Lemma handle_task_loss logits cp loss task task_type logits' cp' loss' :
  handle_task m embedded_text mask embedded_text_sent gold_labels
    (logits, cp, loss) task task_type = Ok (logits', cp', loss') →
  if contributes gold_labels task task_type
  then ∃ x, loss_of (task, task_type) x ∧ loss' = PrimFloat.add loss x
  else loss' = loss.
Proof.
  unfold handle_task. intros H.
  case_bind H. destruct a as [pred_output cp1].
  apply call_decoder_output in E.
  destruct (contributes gold_labels task task_type).
  - unfold dict_getitem in H.
    destruct (pred_output !! "loss") as [l|] eqn:Hl; simpl in H; [|discriminate].
    destruct l; simpl in H; try discriminate.
    injection H as <- <- <-. exists x. split; [|done].
    exists pred_output. done.
  - by injection H as <- <- <-.
Qed.

Lemma handle_tasks_loss todo logits cp loss logits' cp' loss' :
  handle_tasks m embedded_text mask embedded_text_sent gold_labels todo
    (logits, cp, loss) = Ok (logits', cp', loss') →
  ∃ xs,
    Forall2 loss_of (filter (λ p, contributes gold_labels p.1 p.2) todo) xs ∧
    loss' = fold_left PrimFloat.add xs loss.
Proof.
  revert logits cp loss.
  induction todo as [|[task task_type] rest IH]; intros logits cp loss H; simpl in H.
  - injection H as <- <- <-. exists []. split; [constructor|done].
  - case_bind H. destruct a as [[logits1 cp1] loss1].
    apply handle_task_loss in E. apply IH in H as (xs & Hxs & ->).
    rewrite filter_cons. simpl.
    destruct (contributes gold_labels task task_type).
    + destruct E as (x & Hx & ->). exists (x :: xs). split; [by constructor|done].
    + subst loss1. exists xs. done.
Qed.
End Loop.

(** C1, as stated, fails: for a dependency task [t] whose gold bundle holds
    the key [t] but not [t_rels], the decoder's loss is added although the
    type-specific key is absent. *)
Lemma loss_per_type_rule_fails : ¬ loss_per_type_rule.
Proof.
  intros H.
  destruct (H dep_model VNone (Some dep_batch) plain_gold dep_output
              ["t"] ["dependency"]) as (xs & Hxs & Hloss).
  - intros Hempty. apply (f_equal (λ g : gmap string value, g !! "t")) in Hempty.
    vm_compute in Hempty. discriminate.
  - vm_compute. reflexivity.
  - vm_compute. reflexivity.
  - assert (Hfilter : filter (λ p : string * string,
                        key_in (spec_type_key p.1 p.2) plain_gold)
                        (zip ["t"] ["dependency"]) = []) by (vm_compute; reflexivity).
    rewrite Hfilter in Hxs. apply Forall2_nil_inv_l in Hxs. subst xs.
    unfold dep_output in Hloss.
    rewrite lookup_insert_ne in Hloss by done.
    rewrite add_metadata_lookup in Hloss by done.
    rewrite lookup_insert_eq in Hloss.
    apply (f_equal (λ o, match o with
                         | Some (VNum x) => PrimFloat.eqb x 0%float
                         | _ => true
                         end)) in Hloss.
    vm_compute in Hloss. discriminate.
Qed.

(** C1, amended: when [forward] returns, the aggregated loss is the sum, in
    registry order and starting from [0.0], of [pred_output['loss']] over
    exactly the selected tasks for which the gold bundle holds the task name,
    or the task is a dependency task and the bundle holds [<task>_rels], or
    the task is sequence-to-sequence and the bundle holds
    [<task>_target_words]; the other selected tasks add nothing.  The sum is
    stored under [loss] when the gold bundle is not empty. *)
Theorem loss_is_sum m tokens metadata gold_labels output_dict :
  forward m tokens metadata gold_labels = Ok output_dict →
  ∃ ts tys xs,
    select_tasks metadata (zip (tasks m) (task_types m)) ([], []) = Ok (ts, tys) ∧
    Forall2 (task_loss m tokens tys gold_labels)
      (filter (λ p, selected gold_labels p.1 p.2) (zip ts tys)) xs ∧
    output_dict !! "loss" =
      if bool_decide (gold_labels = ∅) then None else Some (VNum (float_sum xs)).
Proof.
  intros H. apply forward_Ok in H.
  destruct H as (ts & tys & logits & cp & loss & Hsel & Hloop & _ & _ & _ & Hloss).
  apply handle_tasks_loss in Hloop as (xs & Hxs & ->).
  exists ts, tys, xs. split; [done|]. split; [|done].
  erewrite list_filter_iff; [exact Hxs|].
  intros [task task_type]. simpl. symmetry. apply contributes_selected.
Qed.

Lemma loss_is_sum_witness :
  ∃ ts tys xs,
    select_tasks (Some dep_batch) (zip (tasks dep_model) (task_types dep_model)) ([], [])
      = Ok (ts, tys) ∧
    Forall2 (task_loss dep_model VNone tys plain_gold)
      (filter (λ p, selected plain_gold p.1 p.2) (zip ts tys)) xs ∧
    dep_output !! "loss" =
      if bool_decide (plain_gold = ∅) then None else Some (VNum (float_sum xs)).
Proof.
  apply (loss_is_sum dep_model VNone (Some dep_batch) plain_gold dep_output).
  vm_compute. reflexivity.
Defined.

(** ** The empty selection *)

(** C6, as stated, fails: with no column in the batch and a gold bundle that
    is not empty, no task is selected and yet [forward] emits [loss]. *)
Lemma empty_selection_rule_fails : ¬ empty_selection_rule.
Proof.
  intros H.
  destruct (H tagger_model VNone (Some bare_batch) plain_gold bare_output)
    as (Hloss & _).
  - vm_compute. reflexivity.
  - vm_compute. reflexivity.
  - unfold bare_output in Hloss.
    rewrite lookup_insert_ne in Hloss by done.
    rewrite add_metadata_lookup in Hloss by done.
    rewrite lookup_insert_eq in Hloss. discriminate.
Qed.

(** C6, amended: when no task is selected, [forward] returns a bundle whose
    class-probability mapping and per-task loss mapping are empty; it has no
    [loss] key when the gold bundle is empty, and the [loss] [0.0] otherwise.
    When no metric is extracted, [get_metrics] returns the composite [0]
    alone. *)
Theorem empty_selection m tokens metadata gold_labels :
  select_tasks metadata (zip (tasks m) (task_types m)) ([], []) = Ok ([], []) →
  (∃ output_dict,
     forward m tokens metadata gold_labels = Ok output_dict ∧
     output_dict !! "loss" =
       (if bool_decide (gold_labels = ∅) then None else Some (VNum 0%float)) ∧
     output_dict !! "class_probabilities" = Some (VDict ∅) ∧
     output_dict !! "logits" = Some (VDict ∅)) ∧
  ∀ reset log m',
    collect_metrics reset (tasks m) m [] [] = (Ok [], log, m') →
    get_metrics m reset = (Ok [(".run/.sum", VNum 0%float)], log, m').
Proof.
  intros Hsel. split.
  - unfold forward. rewrite Hsel. simpl.
    destruct (shared_representation m tokens (get_text_field_mask m tokens) [])
      as [embedded_text embedded_text_sent].
    simpl. eexists. split; [reflexivity|].
    rewrite !lookup_insert_ne by done.
    rewrite !add_metadata_lookup by done.
    case_bool_decide; simplify_map_eq; done.
  - intros reset log m' Hcollect. unfold get_metrics. rewrite Hcollect. done.
Qed.

Lemma empty_selection_witness :
  (∃ output_dict,
     forward tagger_model VNone (Some bare_batch) plain_gold = Ok output_dict ∧
     output_dict !! "loss" =
       (if bool_decide (plain_gold = ∅) then None else Some (VNum 0%float)) ∧
     output_dict !! "class_probabilities" = Some (VDict ∅) ∧
     output_dict !! "logits" = Some (VDict ∅)) ∧
  ∀ reset log m',
    collect_metrics reset (tasks tagger_model) tagger_model [] [] = (Ok [], log, m') →
    get_metrics tagger_model reset = (Ok [(".run/.sum", VNum 0%float)], log, m').
Proof.
  apply (empty_selection tagger_model VNone (Some bare_batch) plain_gold).
  vm_compute. reflexivity.
Defined.

(** ** Metric reducer *)

Lemma dict_set_fresh k v d :
  Forall (λ e, e.1 ≠ k) d → dict_set k v d = d ++ [(k, v)].
Proof.
  induction 1 as [|[k' v'] d Hk _ IH]; simpl; [done|].
  rewrite bool_decide_eq_false_2 by done. by rewrite IH.
Qed.

Lemma dict_set_Forall (P : string → Prop) k v d :
  P k → Forall (λ e, P e.1) d → Forall (λ e, P e.1) (dict_set k v d).
Proof.
  intros Hk. induction 1 as [|[k' v'] d Hk' Hd IH]; simpl.
  - by repeat constructor.
  - case_bool_decide; by constructor.
Qed.

Lemma recognized_spec name :
  recognized name = true ↔
    last_component name ∈ ["acc"; "ppl"; "micro-f1"; "macro-f1"; "span_f1";
                           "multi_span_f1"; "bleu"]
    ∨ lower (last_component name) = "las".
Proof. unfold recognized. by rewrite orb_true_iff, !bool_decide_eq_true. Qed.

Lemma extract_metric_recognized name task_metric :
  recognized name = true →
  ∀ r, extract_metric name task_metric = Ok r → is_Some r.
Proof.
  rewrite recognized_spec, !elem_of_cons, elem_of_nil.
  unfold extract_metric. intros Hrec [v|] Hr; [by eexists|].
  exfalso. revert Hr.
  repeat case_bool_decide; try discriminate;
    try (destruct (py_getitem _ _); discriminate).
  intros _.
  repeat match goal with
         | H : ¬ _ ∈ _ |- _ => rewrite ?elem_of_cons, ?elem_of_nil in H
         end.
  naive_solver.
Qed.

Lemma extract_metric_unrecognized name task_metric :
  recognized name = false → extract_metric name task_metric = Ok None.
Proof.
  intros Hrec. apply not_true_iff_false in Hrec.
  rewrite recognized_spec, !elem_of_cons, elem_of_nil in Hrec.
  unfold extract_metric.
  repeat match goal with
         | |- context [bool_decide ?P] =>
             rewrite (bool_decide_eq_false_2 P)
               by (rewrite ?elem_of_cons, ?elem_of_nil; naive_solver)
         end.
  done.
Qed.

Lemma extract_items_keys items : ∀ metrics log metrics' log',
  Forall (λ e, recognized e.1 = true) metrics →
  extract_items items metrics log = (Ok metrics', log') →
  Forall (λ e, recognized e.1 = true) metrics'.
Proof.
  induction items as [|[name task_metric] rest IH]; intros metrics log metrics' log' Hm H;
    simpl in H.
  - by injection H as <- <-.
  - destruct (extract_metric name task_metric) as [[v|]|e] eqn:Hex; [| |done].
    + eapply IH; [|exact H].
      apply (dict_set_Forall (λ k, recognized k = true)); [|done].
      destruct (recognized name) eqn:Hrec; [done|].
      by rewrite (extract_metric_unrecognized _ _ Hrec) in Hex.
    + by eapply IH.
Qed.

Lemma extract_items_censor items : ∀ metrics log r log',
  extract_items items metrics log = (r, log') →
  ∀ log0, extract_items (filter (λ e, recognized e.1) items) metrics log0 = (r, log0).
Proof.
  induction items as [|[name task_metric] rest IH]; intros metrics log r log' H log0;
    simpl in H.
  - by injection H as <- <-.
  - rewrite filter_cons. simpl.
    destruct (recognized name) eqn:Hrec; simpl.
    + pose proof (extract_metric_recognized name task_metric Hrec) as Hsome.
      destruct (extract_metric name task_metric) as [[v|]|e]; simpl.
      * by eapply IH.
      * by destruct (Hsome None eq_refl).
      * by injection H as <- <-.
    + rewrite (extract_metric_unrecognized _ _ Hrec) in H. by eapply IH.
Qed.

Lemma extract_items_log items : ∀ metrics log r log',
  extract_items items metrics log = (r, log') →
  ∃ names, Forall (λ name, recognized name = false) names ∧
           log' = log ++ (unrecognized_message <$> names).
Proof.
  induction items as [|[name task_metric] rest IH]; intros metrics log r log' H;
    simpl in H.
  - injection H as <- <-. exists []. by rewrite app_nil_r.
  - destruct (extract_metric name task_metric) as [[v|]|e] eqn:Hex.
    + by eapply IH.
    + apply IH in H as (names & Hnames & ->). exists (name :: names). split.
      * constructor; [|done]. destruct (recognized name) eqn:Hrec; [|done].
        by destruct (extract_metric_recognized _ _ Hrec _ Hex).
      * by rewrite <- app_assoc.
    + injection H as <- <-. exists []. by rewrite app_nil_r.
Qed.

Lemma set_dec_state_censor d s :
  set_dec_state (censor_decoder d) s = censor_decoder (set_dec_state d s).
Proof. reflexivity. Qed.

Lemma set_decoder_censor m task d :
  set_decoder (censor m) task (censor_decoder d) = censor (set_decoder m task d).
Proof. unfold set_decoder, censor. simpl. by rewrite fmap_insert. Qed.

Lemma get_decoder_censor m task :
  get_decoder (censor m) task = censor_decoder <$> get_decoder m task.
Proof.
  unfold get_decoder, censor. simpl. rewrite lookup_fmap.
  by destruct (decoders m !! task).
Qed.

Lemma collect_metrics_censor reset todo : ∀ m metrics log r log' m',
  collect_metrics reset todo m metrics log = (r, log', m') →
  ∀ log0, collect_metrics reset todo (censor m) metrics log0 = (r, log0, censor m').
Proof.
  induction todo as [|task rest IH]; intros m metrics log r log' m' H log0; simpl in H |- *.
  - by injection H as <- <- <-.
  - rewrite get_decoder_censor.
    destruct (get_decoder m task) as [d|e]; simpl; [|by injection H as <- <- <-].
    destruct (dec_get_metrics d reset (dec_state d)) as [items s].
    rewrite set_dec_state_censor, set_decoder_censor.
    destruct (extract_items items metrics log) as [[metrics1|e] log1] eqn:Hitems;
      rewrite (extract_items_censor _ _ _ _ _ Hitems log0).
    + by eapply IH.
    + by injection H as <- <- <-.
Qed.

Lemma collect_metrics_keys reset todo : ∀ m metrics log metrics' log' m',
  Forall (λ e, recognized e.1 = true) metrics →
  collect_metrics reset todo m metrics log = (Ok metrics', log', m') →
  Forall (λ e, recognized e.1 = true) metrics'.
Proof.
  induction todo as [|task rest IH]; intros m metrics log metrics' log' m' Hm H;
    simpl in H.
  - by injection H as <- <- <-.
  - destruct (get_decoder m task) as [d|e]; [|done].
    destruct (dec_get_metrics d reset (dec_state d)) as [items s].
    destruct (extract_items items metrics log) as [[metrics1|e] log1] eqn:Hitems; [|done].
    eapply IH; [|exact H]. by eapply extract_items_keys.
Qed.

Lemma collect_metrics_log reset todo : ∀ m metrics log r log' m',
  collect_metrics reset todo m metrics log = (r, log', m') →
  ∃ names, Forall (λ name, recognized name = false) names ∧
           log' = log ++ (unrecognized_message <$> names).
Proof.
  induction todo as [|task rest IH]; intros m metrics log r log' m' H; simpl in H.
  - injection H as <- <- <-. exists []. by rewrite app_nil_r.
  - destruct (get_decoder m task) as [d|e];
      [|injection H as <- <- <-; exists []; by rewrite app_nil_r].
    destruct (dec_get_metrics d reset (dec_state d)) as [items s].
    destruct (extract_items items metrics log) as [[metrics1|e] log1] eqn:Hitems;
      apply extract_items_log in Hitems as (names1 & Hnames1 & ->).
    + apply IH in H as (names2 & Hnames2 & ->). exists (names1 ++ names2).
      split; [by apply Forall_app|]. by rewrite fmap_app, app_assoc.
    + injection H as <- <- <-. by exists names1.
Qed.

Lemma collect_metrics_registry reset todo : ∀ m metrics log r log' m',
  collect_metrics reset todo m metrics log = (r, log', m') →
  tasks m' = tasks m ∧ task_types m' = task_types m.
Proof.
  induction todo as [|task rest IH]; intros m metrics log r log' m' H; simpl in H.
  - by injection H as <- <- <-.
  - destruct (get_decoder m task) as [d|e]; [|by injection H as <- <- <-].
    destruct (dec_get_metrics d reset (dec_state d)) as [items s].
    destruct (extract_items items metrics log) as [[metrics1|e] log1].
    + by apply IH in H.
    + by injection H as <- <- <-.
Qed.

Lemma existsb_Exists (track l : list string) :
  existsb (λ c, bool_decide (c ∈ track)) l = bool_decide (Exists (λ c, c ∈ track) l).
Proof.
  induction l as [|c l IH]; simpl.
  - done.
  - rewrite IH. apply eq_true_iff_eq.
    rewrite orb_true_iff, !bool_decide_eq_true, Exists_cons. done.
Qed.

Lemma counted_tracked track name :
  counted track name = is_tracked track name && negb (endswith name "ppl").
Proof.
  unfold counted, is_tracked. rewrite existsb_Exists.
  by destruct (bool_decide _), (startswith name "_").
Qed.

Lemma counted_spec track name :
  counted track name ↔
    (∃ c, c ∈ split "/"%char name ∧ c ∈ track) ∧
    startswith name "_" = false ∧ endswith name "ppl" = false.
Proof.
  unfold counted. rewrite !andb_True, bool_decide_spec, Exists_exists.
  rewrite !negb_True, !Is_true_false. tauto.
Qed.

Lemma sum_metrics_spec track metrics : ∀ acc metric_sum,
  sum_metrics track metrics acc = Ok metric_sum →
  ∃ xs, Forall2 (λ e x, e.2 = VNum x) (filter (λ e, counted track e.1) metrics) xs ∧
        metric_sum = fold_left PrimFloat.add xs acc.
Proof.
  induction metrics as [|[name metric] rest IH]; intros acc metric_sum H; simpl in H.
  - injection H as <-. exists []. split; [constructor|done].
  - rewrite filter_cons. simpl. rewrite counted_tracked.
    destruct (is_tracked track name); simpl; [|by apply IH].
    destruct (endswith name "ppl"); simpl in *; [by apply IH|].
    destruct metric; simpl in H; try discriminate.
    apply IH in H as (xs & Hxs & ->). exists (x :: xs). split; [by constructor|done].
Qed.

Lemma sum_metrics_total track metrics : ∀ acc xs,
  Forall2 (λ e x, e.2 = VNum x) (filter (λ e, counted track e.1) metrics) xs →
  sum_metrics track metrics acc = Ok (fold_left PrimFloat.add xs acc).
Proof.
  induction metrics as [|[name metric] rest IH]; intros acc xs H; simpl.
  - apply Forall2_nil_inv_l in H. by subst.
  - rewrite filter_cons in H. simpl in H. rewrite counted_tracked in H.
    destruct (is_tracked track name); simpl in *; [|by apply IH].
    destruct (endswith name "ppl"); simpl in *; [by apply IH|].
    apply Forall2_cons_inv_l in H as (x & xs' & Hx & Hxs & ->).
    simpl in Hx. subst metric. simpl. by apply IH.
Qed.

Lemma get_metrics_Ok m reset out log m' :
  get_metrics m reset = (Ok out, log, m') →
  ∃ metrics metric_sum,
    collect_metrics reset (tasks m) m [] [] = (Ok metrics, log, m') ∧
    sum_metrics (metrics_to_track m) metrics 0%float = Ok metric_sum ∧
    out = metrics ++ [(".run/.sum", VNum metric_sum)].
Proof.
  unfold get_metrics. intros H.
  destruct (collect_metrics reset (tasks m) m [] []) as [[[metrics|e] log1] m1] eqn:Hc;
    [|done].
  assert (Htrack : metrics_to_track m1 = metrics_to_track m).
  { unfold metrics_to_track.
    by destruct (collect_metrics_registry _ _ _ _ _ _ _ _ Hc) as [-> ->]. }
  rewrite Htrack in H.
  destruct (sum_metrics (metrics_to_track m) metrics 0%float) as [metric_sum|e] eqn:Hs;
    [|done].
  injection H as <- <- <-. exists metrics, metric_sum. split; [done|]. split; [done|].
  apply dict_set_fresh.
  apply collect_metrics_keys in Hc; [|constructor].
  eapply Forall_impl; [exact Hc|]. intros [k v] Hk. simpl in *. intros ->.
  by vm_compute in Hk.
Qed.

Lemma metrics_to_track_spec m name :
  name ∈ metrics_to_track m ↔
    ∃ task task_type,
      (task, task_type) ∈ zip (tasks m) (task_types m) ∧
      ((task_type ≠ "dependency" ∧ name = task) ∨
       (task_type = "dependency" ∧ name = "las")).
Proof.
  unfold metrics_to_track. rewrite list_elem_of_fmap. split.
  - intros ([task task_type] & -> & Hin). exists task, task_type. split; [done|].
    case_bool_decide as Hty; [by left|right]. split; [|done].
    by destruct (decide (task_type = "dependency")).
  - intros (task & task_type & Hin & Hcase). exists (task, task_type).
    split; [|done]. destruct Hcase as [[Hty ->]|[-> ->]].
    + by rewrite bool_decide_eq_true_2.
    + rewrite bool_decide_eq_false_2; [done|]. by intros Hne.
Qed.

(** C4: the composite score stored under [.run/.sum] is the sum, in order, of
    the extracted metrics whose name has a component in the tracked set, does
    not start with an underscore and does not end in [ppl]; the tracked set
    holds the names of the tasks that are not dependency tasks, and [las] for
    the dependency tasks.  On the example of the specification the composite
    score is [0.8 + 0.6 = 1.4]. *)
Theorem composite_is_sum :
  (∀ m reset out log m',
     get_metrics m reset = (Ok out, log, m') →
     ∃ metrics xs,
       collect_metrics reset (tasks m) m [] [] = (Ok metrics, log, m') ∧
       Forall2 (λ e x, e.2 = VNum x)
         (filter (λ e, counted (metrics_to_track m) e.1) metrics) xs ∧
       out = metrics ++ [(".run/.sum", VNum (float_sum xs))]) ∧
  (∀ m name,
     name ∈ metrics_to_track m ↔
       ∃ task task_type,
         (task, task_type) ∈ zip (tasks m) (task_types m) ∧
         ((task_type ≠ "dependency" ∧ name = task) ∨
          (task_type = "dependency" ∧ name = "las"))) ∧
  (∀ track name,
     counted track name ↔
       (∃ c, c ∈ split "/"%char name ∧ c ∈ track) ∧
       startswith name "_" = false ∧ endswith name "ppl" = false) ∧
  metrics_to_track metric_model = ["task_a"; "las"] ∧
  (get_metrics metric_model false).1.1 =
    Ok [("task_a/acc", VNum 0.8%float); ("task_b/las", VNum 0.6%float);
        (".run/.sum", VNum 1.4%float)].
Proof.
  split; [|split; [exact metrics_to_track_spec
                  |split; [exact counted_spec|split; vm_compute; reflexivity]]].
  intros m reset out log m' H.
  apply get_metrics_Ok in H as (metrics & metric_sum & Hc & Hs & ->).
  apply sum_metrics_spec in Hs as (xs & Hxs & ->).
  by exists metrics, xs.
Qed.

Lemma composite_is_sum_witness :
  ∃ metrics xs,
    collect_metrics false (tasks metric_model) metric_model [] []
      = (Ok metrics, [], metric_model) ∧
    Forall2 (λ e x, e.2 = VNum x)
      (filter (λ e, counted (metrics_to_track metric_model) e.1) metrics) xs ∧
    [("task_a/acc", VNum 0.8%float); ("task_b/las", VNum 0.6%float);
     (".run/.sum", VNum 1.4%float)]
      = metrics ++ [(".run/.sum", VNum (float_sum xs))].
Proof.
  apply (proj1 composite_is_sum metric_model false).
  vm_compute. reflexivity.
Defined.

Lemma dict_get_fresh k d :
  Forall (λ e, e.1 ≠ k) d → dict_get k d = None.
Proof.
  induction 1 as [|[k' v'] d Hk _ IH]; simpl; [done|].
  by rewrite bool_decide_eq_false_2.
Qed.

Lemma get_metrics_censor m reset r log m' :
  get_metrics m reset = (r, log, m') →
  get_metrics (censor m) reset = (r, [], censor m').
Proof.
  unfold get_metrics. intros H.
  destruct (collect_metrics reset (tasks m) m [] []) as [[r1 log1] m1] eqn:Hc.
  change (tasks (censor m)) with (tasks m).
  rewrite (collect_metrics_censor _ _ _ _ _ _ _ _ Hc []).
  change (metrics_to_track (censor m1)) with (metrics_to_track m1).
  destruct r1 as [metrics|e]; [|by injection H as <- <- <-].
  destruct (sum_metrics (metrics_to_track m1) metrics 0%float);
    by injection H as <- <- <-.
Qed.

Lemma unrecognized_names_cons name v items :
  unrecognized_names ((name, v) :: items) =
    if recognized name then unrecognized_names items
    else name :: unrecognized_names items.
Proof.
  unfold unrecognized_names. simpl. rewrite filter_cons.
  destruct (recognized name); by case_decide.
Qed.

Lemma unrecognized_names_app items1 items2 :
  unrecognized_names (items1 ++ items2) =
    unrecognized_names items1 ++ unrecognized_names items2.
Proof. unfold unrecognized_names. by rewrite fmap_app, filter_app. Qed.

Lemma extract_items_logged items : ∀ metrics log r log',
  extract_items items metrics log = (r, log') →
  ∃ names,
    log' = log ++ (unrecognized_message <$> names) ∧
    names `prefix_of` unrecognized_names items ∧
    (∀ metrics', r = Ok metrics' → names = unrecognized_names items).
Proof.
  induction items as [|[name task_metric] rest IH]; intros metrics log r log' H;
    simpl in H.
  - injection H as <- <-. exists []. by rewrite app_nil_r.
  - rewrite unrecognized_names_cons.
    destruct (extract_metric name task_metric) as [[v|]|e] eqn:Hex.
    + assert (Hrec : recognized name = true).
      { destruct (recognized name) eqn:Hrec; [done|].
        by rewrite (extract_metric_unrecognized _ _ Hrec) in Hex. }
      rewrite Hrec. by eapply IH.
    + assert (Hrec : recognized name = false).
      { destruct (recognized name) eqn:Hrec; [|done].
        by destruct (extract_metric_recognized _ _ Hrec _ Hex). }
      rewrite Hrec. apply IH in H as (names & -> & Hpre & Hall).
      exists (name :: names). split; [by rewrite <- app_assoc|].
      split; [by apply prefix_cons|]. intros metrics' Hr. f_equal. by eapply Hall.
    + injection H as <- <-. exists []. rewrite app_nil_r.
      split; [done|]. split; [apply prefix_nil|done].
Qed.

Lemma collect_metrics_logged reset todo : ∀ m metrics log r log' m',
  collect_metrics reset todo m metrics log = (r, log', m') →
  ∃ names,
    log' = log ++ (unrecognized_message <$> names) ∧
    names `prefix_of` unrecognized_names (reported_items reset todo m) ∧
    (∀ metrics', r = Ok metrics' →
       names = unrecognized_names (reported_items reset todo m)).
Proof.
  induction todo as [|task rest IH]; intros m metrics log r log' m' H; simpl in H |- *.
  - injection H as <- <- <-. exists []. by rewrite app_nil_r.
  - unfold get_decoder in H.
    destruct (decoders m !! task) as [d|].
    2:{ injection H as <- <- <-. exists []. rewrite app_nil_r.
        split; [done|]. split; [apply prefix_nil|done]. }
    destruct (dec_get_metrics d reset (dec_state d)) as [items s].
    rewrite unrecognized_names_app.
    destruct (extract_items items metrics log) as [[metrics1|e] log1] eqn:Hitems;
      apply extract_items_logged in Hitems as (names1 & -> & Hpre1 & Hall1).
    + apply IH in H as (names2 & -> & Hpre2 & Hall2).
      rewrite (Hall1 metrics1 eq_refl).
      exists (unrecognized_names items ++ names2).
      split; [by rewrite fmap_app, app_assoc|].
      split; [by apply prefix_app|].
      intros metrics' Hr. f_equal. by eapply Hall2.
    + injection H as <- <- <-. exists names1.
      split; [done|]. split; [by apply prefix_app_r|done].
Qed.

(** C7: a name is outside the vocabulary exactly when the chain of tests
    falls through to its last branch.  The loop over a decoder's items, when
    it completes, has appended one error message for each such name and
    stored what it stores without these items.  [get_metrics] returns what it
    returns when no decoder reports such a metric (the same mapping and
    composite score, or the same exception); its log is an initial part of
    the messages for the reported names outside the vocabulary, and all of
    them when it returns; the mapping it returns holds recognized names only,
    followed by the composite score. *)
Theorem unrecognized_is_dropped :
  (∀ name task_metric,
     recognized name = false ↔ extract_metric name task_metric = Ok None) ∧
  (∀ items metrics log metrics' log',
     extract_items items metrics log = (Ok metrics', log') →
     log' = log ++ (unrecognized_message <$> unrecognized_names items) ∧
     extract_items (filter (λ e, recognized e.1) items) metrics log
       = (Ok metrics', log)) ∧
  (∀ m reset r log m',
     get_metrics m reset = (r, log, m') →
     get_metrics (censor m) reset = (r, [], censor m') ∧
     (∃ names,
        log = unrecognized_message <$> names ∧
        names `prefix_of` unrecognized_names (reported_items reset (tasks m) m)) ∧
     ∀ out,
       r = Ok out →
       log = unrecognized_message
               <$> unrecognized_names (reported_items reset (tasks m) m) ∧
       ∃ metrics metric_sum,
         out = metrics ++ [(".run/.sum", VNum metric_sum)] ∧
         Forall (λ e, recognized e.1 = true) metrics).
Proof.
  split; [|split].
  - intros name task_metric. split; [apply extract_metric_unrecognized|].
    intros Hex. destruct (recognized name) eqn:Hrec; [|done].
    by destruct (extract_metric_recognized _ _ Hrec _ Hex).
  - intros items metrics log metrics' log' H. split.
    + destruct (extract_items_logged _ _ _ _ _ H) as (names & -> & _ & Hall).
      by rewrite (Hall metrics' eq_refl).
    + by eapply extract_items_censor.
  - intros m reset r log m' H. split; [by eapply get_metrics_censor|].
    assert (Hlog : ∃ names,
              log = unrecognized_message <$> names ∧
              names `prefix_of` unrecognized_names (reported_items reset (tasks m) m) ∧
              (∀ out, r = Ok out →
                 names = unrecognized_names (reported_items reset (tasks m) m))).
    { unfold get_metrics in H.
      destruct (collect_metrics reset (tasks m) m [] []) as [[r1 log1] m1] eqn:Hc.
      apply collect_metrics_logged in Hc as (names & -> & Hpre & Hall).
      exists names. simpl.
      destruct r1 as [metrics|e]; [|injection H as <- <- <-; done].
      destruct (sum_metrics (metrics_to_track m1) metrics 0%float);
        injection H as <- <- <-; (split; [done|]); (split; [done|]); [|done].
      intros out _. by eapply Hall. }
    destruct Hlog as (names & -> & Hpre & Hall). split; [by exists names|].
    intros out ->. split; [by rewrite (Hall out eq_refl)|].
    apply get_metrics_Ok in H as (metrics & metric_sum & Hc & _ & ->).
    exists metrics, metric_sum. split; [done|].
    eapply collect_metrics_keys; [|exact Hc]. constructor.
Qed.

Lemma unrecognized_is_dropped_witness :
  get_metrics (censor noisy_metric_model) false =
    (Ok [("task_a/acc", VNum 0.8%float); ("task_b/las", VNum 0.6%float);
         (".run/.sum", VNum 1.4%float)], [], censor noisy_metric_model) ∧
  [unrecognized_message "task_b/speed"] =
    unrecognized_message
      <$> unrecognized_names
            (reported_items false (tasks noisy_metric_model) noisy_metric_model) ∧
  ∃ metrics metric_sum,
    [("task_a/acc", VNum 0.8%float); ("task_b/las", VNum 0.6%float);
     (".run/.sum", VNum 1.4%float)] = metrics ++ [(".run/.sum", VNum metric_sum)] ∧
    Forall (λ e, recognized e.1 = true) metrics.
Proof.
  destruct (proj2 (proj2 unrecognized_is_dropped) noisy_metric_model false
              (Ok [("task_a/acc", VNum 0.8%float); ("task_b/las", VNum 0.6%float);
                   (".run/.sum", VNum 1.4%float)])
              [unrecognized_message "task_b/speed"] noisy_metric_model)
    as (Hcensor & _ & Hout).
  - vm_compute. reflexivity.
  - split; [exact Hcensor|]. exact (Hout _ eq_refl).
Defined.

Lemma set_decoder_id m task d :
  decoders m !! task = Some d → set_decoder m task (set_dec_state d (dec_state d)) = m.
Proof.
  intros Hd. destruct m as [emb enc msk drp decs ts tys]. simpl in *.
  unfold set_decoder. simpl. f_equal.
  apply insert_id. rewrite Hd. by destruct d.
Qed.

Lemma collect_metrics_stable m todo :
  (∀ task d, decoders m !! task = Some d →
             (dec_get_metrics d false (dec_state d)).2 = dec_state d) →
  ∀ metrics log r log' m',
    collect_metrics false todo m metrics log = (r, log', m') → m' = m.
Proof.
  intros Hstable.
  induction todo as [|task rest IH]; intros metrics log r log' m' H; simpl in H.
  - by injection H as <- <- <-.
  - unfold get_decoder in H.
    destruct (decoders m !! task) as [d|] eqn:Hd; [|by injection H as <- <- <-].
    specialize (Hstable task d Hd) as Hs.
    destruct (dec_get_metrics d false (dec_state d)) as [items s]. simpl in Hs. subst s.
    rewrite (set_decoder_id _ _ _ Hd) in H.
    destruct (extract_items items metrics log) as [[metrics1|e] log1].
    + by eapply IH.
    + by injection H as <- <- <-.
Qed.

(** C8: when querying a decoder's metrics without reset leaves its metric
    state as it is, [get_metrics] without reset leaves the model as it is, and
    a second call returns the same mapping, composite score included. *)
Theorem get_metrics_idempotent m r log m' :
  (∀ task d, decoders m !! task = Some d →
             (dec_get_metrics d false (dec_state d)).2 = dec_state d) →
  get_metrics m false = (r, log, m') →
  m' = m ∧ get_metrics m' false = (r, log, m').
Proof.
  intros Hstable H.
  assert (m' = m) as ->; [|done].
  unfold get_metrics in H.
  destruct (collect_metrics false (tasks m) m [] []) as [[r1 log1] m1] eqn:Hc.
  apply (collect_metrics_stable _ _ Hstable) in Hc. subst m1.
  destruct r1 as [metrics|e]; [|by injection H as <- <- <-].
  destruct (sum_metrics (metrics_to_track m) metrics 0%float);
    by injection H as <- <- <-.
Qed.

Lemma get_metrics_idempotent_witness :
  metric_model = metric_model ∧
  get_metrics metric_model false =
    (Ok [("task_a/acc", VNum 0.8%float); ("task_b/las", VNum 0.6%float);
         (".run/.sum", VNum 1.4%float)], [], metric_model).
Proof.
  apply (get_metrics_idempotent metric_model).
  - intros task d Hd.
    destruct (decide (task = "task_a")) as [->|Ha];
      [|destruct (decide (task = "task_b")) as [->|Hb]].
    + vm_compute in Hd. by injection Hd as <-.
    + vm_compute in Hd. by injection Hd as <-.
    + unfold metric_model in Hd. simpl in Hd.
      rewrite lookup_insert_ne, lookup_singleton_ne in Hd by done. done.
  - vm_compute. reflexivity.
Defined.

(** ** Keys built from task names *)

Lemma append_nil_l (s : string) : "" +:+ s = s.
Proof. reflexivity. Qed.

Lemma append_cons (c : ascii) (p s : string) : String c p +:+ s = String c (p +:+ s).
Proof. reflexivity. Qed.

Lemma length_append (p s : string) :
  String.length (p +:+ s) = String.length p + String.length s.
Proof. induction p as [|c p IH]; [done|]. rewrite append_cons. simpl. by rewrite IH. Qed.

Lemma endswith_cons (c : ascii) (s suf : string) :
  endswith (String c s) suf = (String.eqb (String c s) suf || endswith s suf).
Proof. reflexivity. Qed.

Lemma endswith_refl (s : string) : endswith s s = true.
Proof.
  destruct s; [done|]. by rewrite endswith_cons, String.eqb_refl.
Qed.

Lemma endswith_append (p suf : string) : endswith (p +:+ suf) suf = true.
Proof.
  induction p as [|c p IH]; [apply endswith_refl|].
  rewrite append_cons, endswith_cons, IH. apply orb_true_r.
Qed.

Lemma endswith_append_inv (p s suf : string) :
  String.length suf ≤ String.length s →
  endswith (p +:+ s) suf = true → endswith s suf = true.
Proof.
  intros Hlen. induction p as [|c p IH]; [done|].
  rewrite append_cons, endswith_cons. intros [Heq|H]%orb_prop; [|by apply IH].
  apply String.eqb_eq in Heq. apply (f_equal String.length) in Heq.
  simpl in Heq. rewrite length_append in Heq. lia.
Qed.

Lemma append_inj_l (s p q : string) : p +:+ s = q +:+ s → p = q.
Proof.
  revert q. induction p as [|c p IH]; intros [|c' q] H.
  - done.
  - apply (f_equal String.length) in H.
    rewrite append_nil_l, append_cons in H. simpl in H.
    rewrite length_append in H. lia.
  - apply (f_equal String.length) in H.
    rewrite append_nil_l, append_cons in H. simpl in H.
    rewrite length_append in H. lia.
  - rewrite !append_cons in H. injection H as -> H. f_equal. by apply IH.
Qed.

(** A key [<task><suffix>] differs from any key that does not end in
    [suffix]. *)
Lemma suffixed_ne (task suffix k : string) :
  endswith k suffix = false → task +:+ suffix ≠ k.
Proof. intros Hk <-. by rewrite endswith_append in Hk. Qed.

Lemma rels_ne_head_indices (d e : string) : d +:+ "_rels" ≠ e +:+ "_head_indices".
Proof.
  intros H. pose proof (endswith_append d "_rels") as Hd. rewrite H in Hd.
  apply endswith_append_inv in Hd; [done|simpl; lia].
Qed.

(** ** Output humanizer *)

Lemma humanize_task_lookup m output_dict task output_dict' k :
  humanize_task m output_dict task = Ok output_dict' →
  k ≠ task → k ≠ task +:+ "_rels" → k ≠ task +:+ "_head_indices" →
  output_dict' !! k = output_dict !! k.
Proof.
  unfold humanize_task. intros H Hk Hrels Hheads.
  repeat case_bind H.
  destruct a1.
  - repeat case_bind H. injection H as <-. by rewrite lookup_insert_ne.
  - case_bool_decide; [|by injection H as <-].
    case_bind H. destruct a1; [|by injection H as <-].
    repeat case_bind H.
    destruct (dec_human_dep _ _ _ _) as [rels head_indices].
    injection H as <-. by rewrite !lookup_insert_ne.
Qed.

Lemma humanize_tasks_lookup m todo k : ∀ output_dict output_dict',
  humanize_tasks m todo output_dict = Ok output_dict' →
  k ∉ todo → endswith k "_rels" = false → endswith k "_head_indices" = false →
  output_dict' !! k = output_dict !! k.
Proof.
  induction todo as [|task rest IH]; intros output_dict output_dict' H Hk Hrels Hheads;
    simpl in H.
  - by injection H as <-.
  - case_bind H. apply not_elem_of_cons in Hk as [Hne Hk].
    rewrite (IH _ _ H Hk Hrels Hheads).
    apply (humanize_task_lookup _ _ _ _ _ E Hne).
    + intros Heq. symmetry in Heq. by apply suffixed_ne in Heq.
    + intros Heq. symmetry in Heq. by apply suffixed_ne in Heq.
Qed.

(** C5, as stated, fails: with a task called [loss], the humanizer stores its
    prediction under [loss] before the final step reads that key. *)
Lemma zero_loss_rule_fails : ¬ zero_loss_rule.
Proof.
  intros H.
  specialize (H loss_model loss_task_output
                (<["loss" := VStr "label"]> loss_task_output) 1%float).
  rewrite lookup_insert_eq in H.
  assert (Hcase : Some (VStr "label") = Some (VNum 1%float)); [|discriminate].
  apply H; vm_compute; reflexivity.
Qed.

(** C5, amended: when no task is called [loss], the humanizer replaces a [loss] that
    compares equal to zero by the one-element list that holds it, and leaves
    any other [loss] as the number it is; the rest of the bundle is what the
    loop over the tasks made of it. *)
Theorem zero_loss_is_wrapped m output_dict output_dict' x :
  "loss" ∉ tasks m →
  output_dict !! "loss" = Some (VNum x) →
  humanize_tasks m (tasks m) output_dict = Ok output_dict' →
  output_dict' !! "loss" = Some (VNum x) ∧
  make_output_human_readable m output_dict =
    Ok (if PrimFloat.eqb x 0%float
        then <["loss" := VList [VNum x]]> output_dict'
        else output_dict').
Proof.
  intros Hname Hloss Hloop.
  assert (Hloss' : output_dict' !! "loss" = Some (VNum x)).
  { rewrite <- Hloss. by eapply humanize_tasks_lookup. }
  split; [done|].
  unfold make_output_human_readable. rewrite Hloop. simpl.
  unfold dict_getitem. rewrite Hloss'. simpl.
  by destruct (PrimFloat.eqb x 0%float).
Qed.

Lemma zero_loss_is_wrapped_witness :
  (bare_output !! "loss" = Some (VNum 0%float) ∧
   make_output_human_readable tagger_model bare_output =
     Ok (<["loss" := VList [VNum 0%float]]> bare_output)) ∧
  (small_loss_output !! "loss" = Some (VNum 0.0001%float) ∧
   make_output_human_readable tagger_model small_loss_output = Ok small_loss_output).
Proof.
  split.
  - apply (zero_loss_is_wrapped tagger_model bare_output bare_output 0%float).
    + apply (bool_decide_unpack _). vm_compute. exact I.
    + vm_compute. reflexivity.
    + vm_compute. reflexivity.
  - apply (zero_loss_is_wrapped tagger_model small_loss_output small_loss_output
             0.0001%float).
    + apply (bool_decide_unpack _). vm_compute. exact I.
    + vm_compute. reflexivity.
    + vm_compute. reflexivity.
Defined.

Lemma no_loss_raises m output_dict :
  "loss" ∉ tasks m → output_dict !! "loss" = None → raises_for_loss m output_dict.
Proof.
  intros Hname Hloss.
  assert (Hraise : ∀ output_dict',
            humanize_tasks m (tasks m) output_dict = Ok output_dict' →
            make_output_human_readable m output_dict = Raise (KeyError "loss")).
  { intros output_dict' Hloop.
    unfold make_output_human_readable. rewrite Hloop. simpl.
    unfold dict_getitem.
    rewrite (humanize_tasks_lookup _ _ _ _ _ Hloop Hname eq_refl eq_refl), Hloss.
    done. }
  split; [|done].
  intros output_dict' H.
  destruct (humanize_tasks m (tasks m) output_dict) as [od|e] eqn:Hloop.
  - by rewrite (Hraise _ eq_refl) in H.
  - unfold make_output_human_readable in H. by rewrite Hloop in H.
Qed.

(** C9, as stated, fails: with a task called [loss], the humanizer returns on
    the bundle of a pure-inference batch. *)
Lemma missing_loss_rule_fails : ¬ missing_loss_rule.
Proof.
  intros H.
  destruct (H loss_model loss_task_inference_output) as [k Hk].
  - vm_compute. reflexivity.
  - assert (Hret : make_output_human_readable loss_model loss_task_inference_output
                   = Ok (<["loss" := VStr "label"]> loss_task_inference_output))
      by (vm_compute; reflexivity).
    rewrite Hret in Hk. discriminate.
Qed.

(** C9, amended: when no task is called [loss], the humanizer raises on every bundle
    without a [loss] key, and so on every bundle that [forward] returns for
    an empty gold-label bundle: it never returns a humanized bundle, and the
    exception is [KeyError: 'loss'] once the loop over the tasks is through. *)
Theorem humanizer_needs_loss m :
  "loss" ∉ tasks m →
  (∀ output_dict, output_dict !! "loss" = None → raises_for_loss m output_dict) ∧
  (∀ tokens metadata output_dict,
     forward m tokens metadata ∅ = Ok output_dict → raises_for_loss m output_dict).
Proof.
  intros Hname. split.
  - intros output_dict. by apply no_loss_raises.
  - intros tokens metadata output_dict H. apply no_loss_raises; [done|].
    apply forward_Ok in H as (ts & tys & logits & cp & loss & _ & _ & _ & _ & _ & Hloss).
    by rewrite Hloss.
Qed.

Lemma humanizer_needs_loss_witness :
  forward dep_model VNone (Some dep_batch) ∅ = Ok inference_output ∧
  make_output_human_readable dep_model inference_output = Raise (KeyError "loss") ∧
  raises_for_loss dep_model inference_output.
Proof.
  assert (Hname : "loss" ∉ tasks dep_model).
  { apply (bool_decide_unpack _). vm_compute. exact I. }
  assert (Hfwd : forward dep_model VNone (Some dep_batch) ∅ = Ok inference_output).
  { vm_compute. reflexivity. }
  split; [exact Hfwd|]. split; [vm_compute; reflexivity|].
  exact (proj2 (humanizer_needs_loss dep_model Hname) VNone (Some dep_batch)
           inference_output Hfwd).
Defined.

(** ** The two entries of a dependency task *)

Lemma insert_keeps_pair (cp : gmap string value) k v d :
  k ≠ d +:+ "_rels" → k ≠ d +:+ "_head_indices" →
  (is_Some (cp !! (d +:+ "_rels")) ↔ is_Some (cp !! (d +:+ "_head_indices"))) →
  is_Some (<[k := v]> cp !! (d +:+ "_rels")) ↔
  is_Some (<[k := v]> cp !! (d +:+ "_head_indices")).
Proof. intros Hr Hh Hcp. by rewrite !lookup_insert_ne. Qed.

Lemma call_decoder_pairs m embedded_text mask embedded_text_sent gold_labels
    task task_type cp pred_output cp' :
  distinct_keys m →
  (task, task_type) ∈ zip (tasks m) (task_types m) →
  dependency_pairs m cp →
  call_decoder m embedded_text mask embedded_text_sent gold_labels task task_type cp
    = Ok (pred_output, cp') →
  dependency_pairs m cp'.
Proof.
  intros Hnames Hin Hcp H d Hd.
  specialize (Hcp d Hd). unfold call_decoder in H.
  destruct (decide (task_type = "dependency")) as [->|Hdep].
  - rewrite bool_decide_eq_false_2, bool_decide_eq_true_2 in H by done.
    repeat case_bind H. injection H as <- <-.
    destruct (decide (d = task)) as [->|Hne].
    + rewrite lookup_insert_eq, lookup_insert_ne, lookup_insert_eq.
      * split; eauto.
      * apply not_eq_sym, rels_ne_head_indices.
    + apply insert_keeps_pair; [apply not_eq_sym, rels_ne_head_indices| |].
      { intros Heq%append_inj_l. done. }
      apply insert_keeps_pair; [|apply rels_ne_head_indices|done].
      intros Heq%append_inj_l. done.
  - destruct (decide (task_type = "unsupervised")) as [->|Hunsup].
    + rewrite !bool_decide_eq_false_2, bool_decide_eq_true_2 in H by done.
      case_bind H. by injection H as <- <-.
    + destruct (Hnames task task_type d Hin Hdep Hunsup Hd) as [Hr Hh].
      repeat case_bool_decide; try done;
        repeat case_bind H; injection H as <- <-; by apply insert_keeps_pair.
Qed.

Lemma handle_tasks_pairs m embedded_text mask embedded_text_sent gold_labels todo :
  distinct_keys m →
  todo ⊆ zip (tasks m) (task_types m) →
  ∀ logits cp loss logits' cp' loss',
    dependency_pairs m cp →
    handle_tasks m embedded_text mask embedded_text_sent gold_labels todo
      (logits, cp, loss) = Ok (logits', cp', loss') →
    dependency_pairs m cp'.
Proof.
  intros Hnames. induction todo as [|[task task_type] rest IH];
    intros Hsub logits cp loss logits' cp' loss' Hcp H; simpl in H.
  - by injection H as <- <- <-.
  - case_bind H. destruct a as [[logits1 cp1] loss1].
    eapply (IH ltac:(set_solver) logits1 cp1 loss1); [|exact H].
    unfold handle_task in E. case_bind E. destruct a as [pred_output cp2].
    assert (cp1 = cp2) as ->.
    { destruct (contributes _ _ _); repeat case_bind E; by injection E as <- <- <-. }
    eapply call_decoder_pairs; [done| |done|exact E0]. set_solver.
Qed.

Lemma selected_subseteq metadata registry ts tys :
  select_tasks metadata registry ([], []) = Ok (ts, tys) → zip ts tys ⊆ registry.
Proof.
  intros H. apply select_tasks_zip in H. destruct registry as [|p rest].
  - by rewrite H.
  - destruct H as (col_idxs & _ & ->). intros x [_ Hx]%list_elem_of_filter. done.
Qed.

Lemma list_index_lookup x l i : list_index x l = Some i → l !! i = Some x.
Proof.
  revert i. induction l as [|y l IH]; intros i H; simpl in H; [done|].
  case_bool_decide as Hy.
  - injection H as <-. by subst.
  - destruct (list_index x l) as [j|]; [|done]. injection H as <-. by apply IH.
Qed.

Lemma list_index_elem x l : x ∈ l → is_Some (list_index x l).
Proof.
  induction 1 as [x l|x y l _ IH]; simpl.
  - by rewrite bool_decide_eq_true_2.
  - case_bool_decide; [done|]. destruct IH as [j ->]. done.
Qed.

Lemma task_type_of_zip m task task_type :
  task_type_of m task = Ok task_type →
  (task, task_type) ∈ zip (tasks m) (task_types m).
Proof.
  unfold task_type_of. intros H.
  destruct (list_index task (tasks m)) as [i|] eqn:Hi; [|done].
  destruct (task_types m !! i) as [ty|] eqn:Hty; [|done]. injection H as ->.
  apply list_elem_of_lookup. exists i.
  apply lookup_zip_with_Some. exists task, task_type.
  split; [done|]. split; [by apply list_index_lookup|done].
Qed.

Lemma task_type_of_total m task :
  task ∈ tasks m → length (tasks m) ≤ length (task_types m) →
  ∃ task_type, task_type_of m task = Ok task_type.
Proof.
  intros Hin Hlen. unfold task_type_of.
  destruct (list_index_elem _ _ Hin) as [i Hi]. rewrite Hi.
  apply list_index_lookup, lookup_lt_Some in Hi.
  destruct (lookup_lt_is_Some_2 (task_types m) i) as [ty ->]; [lia|]. by exists ty.
Qed.

Lemma head_indices_found m cp task :
  dependency_pairs m cp →
  task_type_of m task = Ok "dependency" →
  key_in (task +:+ "_rels") cp →
  ∃ v, py_getitem (VDict cp) (task +:+ "_head_indices") = Ok v.
Proof.
  intros Hcp Hty Hrels. apply task_type_of_zip in Hty.
  apply bool_decide_spec in Hrels. apply (Hcp task Hty) in Hrels as [v Hv].
  exists v. simpl. unfold dict_getitem. by rewrite Hv.
Qed.

Lemma humanize_task_total m cp output_dict task :
  dependency_pairs m cp →
  length (tasks m) ≤ length (task_types m) →
  (∀ t, t ∈ tasks m → is_Some (decoders m !! t)) →
  task ∈ tasks m → task ≠ "class_probabilities" →
  output_dict !! "class_probabilities" = Some (VDict cp) →
  is_Some (output_dict !! "mask") →
  ∃ output_dict',
    humanize_task m output_dict task = Ok output_dict' ∧
    output_dict' !! "class_probabilities" = Some (VDict cp) ∧
    is_Some (output_dict' !! "mask").
Proof.
  intros Hcp Hlen Hdec Hin Hne Hod [mask Hmask].
  destruct (task_type_of_total m task Hin Hlen) as [task_type Hty].
  destruct (Hdec task Hin) as [d Hd].
  assert (Hget : get_decoder m task = Ok d) by (unfold get_decoder; by rewrite Hd).
  assert (Hcpget : dict_getitem output_dict "class_probabilities" = Ok (VDict cp))
    by (unfold dict_getitem; by rewrite Hod).
  assert (Hmaskget : dict_getitem output_dict "mask" = Ok mask)
    by (unfold dict_getitem; by rewrite Hmask).
  assert (Hmask' : ∀ k v, is_Some (<[k := v]> output_dict !! "mask")).
  { intros k v. rewrite lookup_insert_is_Some. destruct (decide (k = "mask")); eauto. }
  unfold humanize_task. rewrite Hty. simpl. rewrite Hcpget. simpl.
  destruct (key_in task cp) eqn:Hhere.
  - rewrite Hget. simpl.
    apply bool_decide_eq_true_1 in Hhere as [p Hp].
    unfold dict_getitem. rewrite Hp. simpl.
    eexists. split; [done|]. split; [by rewrite lookup_insert_ne|done].
  - case_bool_decide as Hdep; [|by eauto 10].
    subst task_type. simpl.
    destruct (key_in (task +:+ "_rels") cp) eqn:Hrels; [|by eauto 10].
    destruct (head_indices_found m cp task Hcp Hty) as [h Hh]; [by rewrite Hrels|].
    apply bool_decide_eq_true_1 in Hrels as [r Hr].
    simpl in Hh. rewrite Hh, Hmaskget, Hget.
    unfold dict_getitem. rewrite Hr. simpl.
    destruct (dec_human_dep d r h mask) as [rels head_indices].
    eexists. split; [done|]. split.
    + rewrite !lookup_insert_ne; [done|..]; by apply suffixed_ne.
    + rewrite lookup_insert_is_Some.
      destruct (decide (task +:+ "_head_indices" = "mask")); eauto.
Qed.

Lemma humanize_tasks_total m cp todo :
  dependency_pairs m cp →
  length (tasks m) ≤ length (task_types m) →
  (∀ t, t ∈ tasks m → is_Some (decoders m !! t)) →
  todo ⊆ tasks m → "class_probabilities" ∉ todo →
  ∀ output_dict,
    output_dict !! "class_probabilities" = Some (VDict cp) →
    is_Some (output_dict !! "mask") →
    ∃ output_dict', humanize_tasks m todo output_dict = Ok output_dict'.
Proof.
  intros Hcp Hlen Hdec. induction todo as [|task rest IH];
    intros Hsub Hname output_dict Hod Hmask; simpl.
  - by eexists.
  - apply not_elem_of_cons in Hname as [Hne Hname].
    destruct (humanize_task_total m cp output_dict task) as (od1 & -> & Hod1 & Hmask1);
      try done; [set_solver|].
    simpl. apply IH; [set_solver|done..].
Qed.

(** C10, as stated, fails: a sequence-to-sequence task called [d_rels] writes
    the key [d_rels] in a batch where the parser [d] is not selected, and the
    humanizer then misses [d_head_indices]. *)
Lemma paired_entries_rule_fails : ¬ paired_entries_rule.
Proof.
  intros H.
  destruct (H clash_model VNone (Some clash_batch) ∅ clash_output)
    as (cp & Hcp & _ & Hlookup).
  - vm_compute. reflexivity.
  - assert (cp = <["d_rels" := VList [VNum 0.5%float]]> ∅) as ->.
    { unfold clash_output in Hcp.
      rewrite lookup_insert_ne, add_metadata_lookup, lookup_insert_eq in Hcp by done.
      by injection Hcp as <-. }
    destruct (Hlookup "d") as [v Hv].
    + vm_compute. reflexivity.
    + vm_compute. exact I.
    + vm_compute in Hv. discriminate.
Qed.

Lemma task_ne_head_indices (task : string) : task ≠ task +:+ "_head_indices".
Proof.
  intros H. apply (f_equal String.length) in H.
  rewrite length_append in H. simpl in H. lia.
Qed.

Lemma humanize_task_head_indices m cp output_dict task :
  dependency_pairs m cp →
  output_dict !! "class_probabilities" = Some (VDict cp) →
  humanize_task m output_dict task ≠ Raise (KeyError (task +:+ "_head_indices")).
Proof.
  intros Hpairs Hod H. unfold humanize_task in H.
  destruct (task_type_of m task) as [task_type|e] eqn:Hty; simpl in H.
  2:{ unfold task_type_of in Hty.
      destruct (list_index task (tasks m)) as [i|]; [|by injection Hty as <-].
      destruct (task_types m !! i); [done|by injection Hty as <-]. }
  assert (Hcp : dict_getitem output_dict "class_probabilities" = Ok (VDict cp))
    by (unfold dict_getitem; by rewrite Hod).
  rewrite Hcp in H. simpl in H.
  destruct (key_in task cp) eqn:Hk.
  - unfold get_decoder in H. destruct (decoders m !! task); simpl in H.
    + apply bool_decide_eq_true_1 in Hk as [p Hp].
      unfold dict_getitem in H. by rewrite Hp in H.
    + injection H as H. by apply task_ne_head_indices in H.
  - case_bool_decide as Hdep; [|done]. subst task_type.
    destruct (key_in (task +:+ "_rels") cp) eqn:Hrels; [|done].
    destruct (head_indices_found m cp task Hpairs Hty) as [h Hh]; [by rewrite Hrels|].
    apply bool_decide_eq_true_1 in Hrels as [r Hr].
    simpl in Hh. rewrite Hh in H.
    unfold dict_getitem in H. rewrite Hr in H. simpl in H.
    destruct (output_dict !! "mask") as [mask|]; simpl in H.
    + unfold get_decoder in H. destruct (decoders m !! task); simpl in H.
      * by destruct (dec_human_dep _ _ _ _).
      * injection H as H. by apply task_ne_head_indices in H.
    + injection H as H. symmetry in H. by apply suffixed_ne in H.
Qed.

(** C10, amended: when no task that writes its own name is named like a key
    of a dependency task, the class probabilities that [forward] returns hold
    [<task>_rels] exactly when they hold [<task>_head_indices], for every
    dependency task.  When, in addition, no task is called
    [class_probabilities], the humanizer finds these class probabilities at
    every task its loop reaches on such a bundle, and its lookup of
    [<task>_head_indices] does not fail there: it succeeds whenever the check
    of [<task>_rels] has, and the humanizer never raises the [KeyError] of
    that key.  When, further, every task has a type and a decoder, the loop
    runs to its end. *)
Theorem rels_with_head_indices m tokens metadata gold_labels output_dict :
  distinct_keys m →
  forward m tokens metadata gold_labels = Ok output_dict →
  ∃ class_probabilities,
    output_dict !! "class_probabilities" = Some (VDict class_probabilities) ∧
    dependency_pairs m class_probabilities ∧
    ("class_probabilities" ∉ tasks m →
     (∀ pre task post output_dict1,
        tasks m = pre ++ task :: post →
        humanize_tasks m pre output_dict = Ok output_dict1 →
        output_dict1 !! "class_probabilities" = Some (VDict class_probabilities) ∧
        humanize_task m output_dict1 task ≠ Raise (KeyError (task +:+ "_head_indices")) ∧
        (task_type_of m task = Ok "dependency" →
         key_in (task +:+ "_rels") class_probabilities →
         ∃ v, py_getitem (VDict class_probabilities) (task +:+ "_head_indices")
              = Ok v)) ∧
     (length (tasks m) ≤ length (task_types m) →
      (∀ t, t ∈ tasks m → is_Some (decoders m !! t)) →
      ∃ output_dict', humanize_tasks m (tasks m) output_dict = Ok output_dict')).
Proof.
  intros Hnames H. apply forward_Ok in H.
  destruct H as (ts & tys & logits & cp & loss & Hsel & Hloop & _ & Hcp & Hmask & _).
  assert (Hpairs : dependency_pairs m cp).
  { eapply handle_tasks_pairs; [done|by eapply selected_subseteq| |exact Hloop].
    intros d _. by rewrite !lookup_empty. }
  exists cp. split; [done|]. split; [done|].
  intros Hname. split.
  - intros pre task post output_dict1 Htasks Hpre.
    assert (Hod1 : output_dict1 !! "class_probabilities" = Some (VDict cp)).
    { rewrite <- Hcp. eapply humanize_tasks_lookup; [exact Hpre| |done|done].
      intros Hin. apply Hname. rewrite Htasks. apply elem_of_app. by left. }
    split; [done|]. split; [by eapply humanize_task_head_indices|].
    by apply head_indices_found.
  - intros Hlen Hdec. eapply humanize_tasks_total; eauto.
Qed.

Lemma distinct_keys_two_task_model : distinct_keys two_task_model.
Proof.
  intros t task_type d Ht Hdep Hunsup Hd. simpl in Ht, Hd.
  apply elem_of_cons in Hd as [[= ->]|Hd];
    [|apply elem_of_cons in Hd as [[=]|Hd]; by apply elem_of_nil in Hd].
  apply elem_of_cons in Ht as [[= -> ->]|Ht]; [done|].
  apply elem_of_cons in Ht as [[= -> ->]|Ht]; [|by apply elem_of_nil in Ht].
  split; discriminate.
Qed.

Lemma rels_with_head_indices_witness :
  ∃ class_probabilities,
    two_task_output !! "class_probabilities" = Some (VDict class_probabilities) ∧
    dependency_pairs two_task_model class_probabilities ∧
    ("class_probabilities" ∉ tasks two_task_model →
     (∀ pre task post output_dict1,
        tasks two_task_model = pre ++ task :: post →
        humanize_tasks two_task_model pre two_task_output = Ok output_dict1 →
        output_dict1 !! "class_probabilities" = Some (VDict class_probabilities) ∧
        humanize_task two_task_model output_dict1 task
          ≠ Raise (KeyError (task +:+ "_head_indices")) ∧
        (task_type_of two_task_model task = Ok "dependency" →
         key_in (task +:+ "_rels") class_probabilities →
         ∃ v, py_getitem (VDict class_probabilities) (task +:+ "_head_indices")
              = Ok v)) ∧
     (length (tasks two_task_model) ≤ length (task_types two_task_model) →
      (∀ t, t ∈ tasks two_task_model → is_Some (decoders two_task_model !! t)) →
      ∃ output_dict',
        humanize_tasks two_task_model (tasks two_task_model) two_task_output
          = Ok output_dict')).
Proof.
  apply (rels_with_head_indices two_task_model VNone (Some two_task_batch) ∅).
  - exact distinct_keys_two_task_model.
  - vm_compute. reflexivity.
Defined.
